(** * voice-worker: the capture-transcribe loop of [record_and_transcribe.py]

    The script records a fixed-length chunk from the microphone, runs a
    preloaded speech-to-text model on it, writes the text to a timestamped
    file, sleeps and repeats.  Everything it does is an effect on the
    outside world, so the embedding is a state-and-exception monad over a
    [World] (file system, console and call trace) driven by an [Env] that
    supplies what the program cannot decide: the microphone signal, the
    wall clock and the model. *)

From Stdlib Require Import Ascii.
From stdpp Require Import base strings gmap list pretty.

Local Open Scope Z_scope.

(** * Data model *)

(** Exceptions the libraries raise.  The program defines none of its own
    and has no [try]. *)
Inductive Exn :=
| PortAudioError        (* sounddevice: no input device, stream error *)
| ValueError            (* numpy: negative dimensions *)
| LibsndfileError       (* soundfile: cannot open the target for writing *)
| RuntimeError          (* whisper: cannot load the audio, inference error *)
| FileNotFoundError     (* open: the parent directory is missing *)
| IsADirectoryError     (* open: the target is a directory *)
| FileExistsError       (* makedirs: the path exists and is no directory *)
| OSError.              (* anything else the platform reports *)

(** [datetime.datetime]: the fields the class stores. *)
Record DateTime := {
  year : Z; month : Z; day : Z;
  hour : Z; minute : Z; second : Z; microsecond : Z
}.

(** The ranges [datetime] enforces on construction. *)
Definition valid_datetime (dt : DateTime) : Prop :=
  1 <= year dt <= 9999 /\ 1 <= month dt <= 12 /\ 1 <= day dt <= 31 /\
  0 <= hour dt <= 23 /\ 0 <= minute dt <= 59 /\ 0 <= second dt <= 59 /\
  0 <= microsecond dt <= 999999.

(** Two readings of the clock that fall into the same second. *)
Definition same_second (dt1 dt2 : DateTime) : Prop :=
  year dt1 = year dt2 /\ month dt1 = month dt2 /\ day dt1 = day dt2 /\
  hour dt1 = hour dt2 /\ minute dt1 = minute dt2 /\ second dt1 = second dt2.

(** The dict [MODEL.transcribe] returns; the script reads ['text'] only. *)
Record TranscribeResult := { text : string; language : string }.

(** Observable calls, in the order they complete. *)
Inductive Event :=
| EvPrint (line : string)
| EvMkdir (path : string)
| EvRec (frames samplerate channels : Z)
| EvWait
| EvSfWrite (path : string)
| EvTranscribe (path : string)
| EvNow
| EvOpen (path : string)
| EvWrite (path : string) (data : string)
| EvSleep (secs : Z).

Section Model.

(** One audio sample ([float32] in the script); the program only moves
    samples around, so the carrier stays abstract. *)
Context {Sample : Type}.

(** The array [sd.rec] returns, of shape [(frames, channels)], stored
    frame after frame. *)
Record Buffer := { buf_channels : Z; buf_data : list Sample }.

(** What a sound file holds. *)
Record Wav := { wav_rate : Z; wav_channels : Z; wav_data : list Sample }.

(** A path of the file system names a directory or a file. *)
Inductive Node :=
| Dir
| WavFile (a : Wav)
| TextFile (s : string).

(** A loaded whisper model, as far as the script uses it. *)
Definition Model : Type := Wav -> Exn + TranscribeResult.

(** What the outside decides.  [mic k] is the outcome of the [k]-th
    recording: a device failure or the signal, by sample number.
    [clock k] is the [k]-th reading of the wall clock; nothing makes it
    monotone (local time repeats an hour when daylight saving ends). *)
Record Env := {
  whisper_load_model : string -> Exn + Model;
  mic : nat -> Exn + (nat -> Sample);
  clock : nat -> DateTime
}.

(** Paths are the strings the program spells; it never spells one file in
    two ways.  [n_rec] and [n_now] count the recordings and the clock
    readings made so far. *)
Record World := {
  files : gmap string Node;
  trace : list Event;
  n_rec : nat;
  n_now : nat
}.

Definition set_files (f : gmap string Node -> gmap string Node) (w : World) : World :=
  {| files := f (files w); trace := trace w; n_rec := n_rec w; n_now := n_now w |}.

Definition log (ev : Event) (w : World) : World :=
  {| files := files w; trace := trace w ++ [ev]; n_rec := n_rec w; n_now := n_now w |}.

Definition tick_rec (w : World) : World :=
  {| files := files w; trace := trace w; n_rec := S (n_rec w); n_now := n_now w |}.

Definition tick_now (w : World) : World :=
  {| files := files w; trace := trace w; n_rec := n_rec w; n_now := S (n_now w) |}.

(** ** The monad: state, and exceptions that keep the effects made so far *)

Inductive Result (A : Type) :=
| Ok (a : A) (w : World)
| Raise (e : Exn) (w : World).
Arguments Ok {A} a w.
Arguments Raise {A} e w.

Definition M (A : Type) : Type := World -> Result A.

Definition ret {A} (a : A) : M A := fun w => Ok a w.

Definition bind {A B} (m : M A) (k : A -> M B) : M B :=
  fun w => match m w with
           | Ok a w' => k a w'
           | Raise e w' => Raise e w'
           end.

Definition raise {A} (e : Exn) : M A := fun w => Raise e w.

Definition emit (ev : Event) : M unit := fun w => Ok tt (log ev w).

End Model.

Arguments Buffer : clear implicits.
Arguments Wav : clear implicits.
Arguments Node : clear implicits.
Arguments Model : clear implicits.
Arguments Env : clear implicits.
Arguments World : clear implicits.
Arguments Result : clear implicits.
Arguments M : clear implicits.
Arguments Ok {Sample A} a w.
Arguments Raise {Sample A} e w.
Arguments Dir {Sample}.
Arguments TextFile {Sample} s.

Declare Scope prog_scope.
Delimit Scope prog_scope with prog.
Notation "x <- m ;; k" := (bind m (fun x => k))
  (at level 100, m at next level, k at level 200, right associativity) : prog_scope.
Notation "m ;; k" := (bind m (fun _ => k))
  (at level 100, k at level 200, right associativity) : prog_scope.

(** * Library calls *)

(** ** Paths *)

Definition slash : ascii := "/"%char.

Definition is_slash (c : ascii) : bool := bool_decide (c = slash).

Fixpoint has_slash (s : string) : bool :=
  match s with
  | EmptyString => false
  | String c s' => is_slash c || has_slash s'
  end.

(** [p[:p.rfind('/') + 1]] *)
Fixpoint head_of (p : string) : string :=
  match p with
  | EmptyString => EmptyString
  | String c p' => if has_slash p then String c (head_of p') else EmptyString
  end.

Fixpoint all_slash (s : string) : bool :=
  match s with
  | EmptyString => true
  | String c s' => is_slash c && all_slash s'
  end.

(** [head.rstrip('/')] *)
Fixpoint rstrip_slash (s : string) : string :=
  match s with
  | EmptyString => EmptyString
  | String c s' => if all_slash s then EmptyString else String c (rstrip_slash s')
  end.

(** [posixpath.dirname] *)
Definition dirname (p : string) : string :=
  let head := head_of p in
  if all_slash head then head else rstrip_slash head.

(** ** Numbers as text *)

(** [str(n)] of a Python int. *)
Definition str (n : Z) : string := pretty n.

Fixpoint zeros (n : nat) : string :=
  match n with
  | O => EmptyString
  | S n' => String "0" (zeros n')
  end.

(** [s.zfill(width)] for a string of digits: C's [%0<width>d]. *)
Definition zfill (width : nat) (s : string) : string :=
  zeros (width - String.length s) +:+ s.

(** ** [datetime.strftime] *)

Definition directive (c : ascii) (dt : DateTime) : string :=
  if bool_decide (c = "Y"%char) then zfill 4 (str (year dt))
  else if bool_decide (c = "m"%char) then zfill 2 (str (month dt))
  else if bool_decide (c = "d"%char) then zfill 2 (str (day dt))
  else if bool_decide (c = "H"%char) then zfill 2 (str (hour dt))
  else if bool_decide (c = "M"%char) then zfill 2 (str (minute dt))
  else if bool_decide (c = "S"%char) then zfill 2 (str (second dt))
  else String "%" (String c EmptyString).

Fixpoint strftime (fmt : string) (dt : DateTime) : string :=
  match fmt with
  | EmptyString => EmptyString
  | String c rest =>
      match rest with
      | String d rest' =>
          if bool_decide (c = "%"%char) then directive d dt +:+ strftime rest' dt
          else String c (strftime rest dt)
      | EmptyString => String c EmptyString
      end
  end.

Section Program.

Context {Sample : Type} (env : Env Sample).

Local Open Scope prog_scope.

(** ** Console, clock and sleep *)

Definition print (line : string) : M Sample unit := emit (EvPrint line).

Definition time_sleep (secs : Z) : M Sample unit := emit (EvSleep secs).

(** [datetime.now()]: the next reading of the wall clock. *)
Definition datetime_now : M Sample DateTime :=
  fun w => Ok (clock env (n_now w)) (log EvNow (tick_now w)).

(** ** Files *)

(** The directory a new file goes into must exist; a bare name goes into
    the working directory, which does. *)
Definition parent_ok (fs : gmap string (Node Sample)) (p : string) : bool :=
  let d := dirname p in
  if bool_decide (d = EmptyString) then true
  else match fs !! d with
       | Some Dir => true
       | _ => false
       end.

(** [os.makedirs(path, exist_ok=...)] for a path directly under an
    existing directory, which is the only way the script calls it. *)
Definition os_makedirs (path : string) (exist_ok : bool) : M Sample unit :=
  fun w =>
    match files w !! path with
    | None => Ok tt (log (EvMkdir path) (set_files (insert path Dir) w))
    | Some Dir => if exist_ok then Ok tt w else Raise FileExistsError w
    | Some _ => Raise FileExistsError w
    end.

(** [open(path, "w")]: creates the file or truncates it; the handle is
    the path. *)
Definition open_w (path : string) : M Sample string :=
  fun w =>
    match files w !! path with
    | Some Dir => Raise IsADirectoryError w
    | _ =>
        if parent_ok (files w) path
        then Ok path (log (EvOpen path) (set_files (insert path (TextFile EmptyString)) w))
        else Raise FileNotFoundError w
    end.

(** [f.write(s)]: appends at the position of the handle, the end. *)
Definition file_write (f : string) (s : string) : M Sample unit :=
  fun w =>
    match files w !! f with
    | Some (TextFile old) =>
        Ok tt (log (EvWrite f s) (set_files (insert f (TextFile (old +:+ s))) w))
    | _ => Raise OSError w
    end.

(** ** Sound *)

(** The first [n] samples of a signal. *)
Definition capture (sig : nat -> Sample) (n : Z) : list Sample :=
  map sig (seq 0 (Z.to_nat n)).

(** [sd.rec(frames, samplerate=..., channels=...)]: allocates the array,
    then opens the default input device. *)
Definition sd_rec (frames samplerate channels : Z) : M Sample (Buffer Sample) :=
  fun w =>
    if bool_decide (frames < 0) then Raise ValueError w
    else match mic env (n_rec w) with
         | inl e => Raise e w
         | inr sig =>
             Ok {| buf_channels := channels;
                   buf_data := capture sig (frames * channels) |}
                (log (EvRec frames samplerate channels) (tick_rec w))
         end.

(** [sd.wait()]: returns when the recording is complete. *)
Definition sd_wait : M Sample unit := emit EvWait.

(** [sf.write(file, data, samplerate)] *)
Definition sf_write (file : string) (data : Buffer Sample) (samplerate : Z)
  : M Sample unit :=
  fun w =>
    match files w !! file with
    | Some Dir => Raise LibsndfileError w
    | _ =>
        if parent_ok (files w) file
        then Ok tt (log (EvSfWrite file)
                      (set_files
                         (insert file
                            (WavFile {| wav_rate := samplerate;
                                        wav_channels := buf_channels data;
                                        wav_data := buf_data data |})) w))
        else Raise LibsndfileError w
    end.

(** [model.transcribe(path)]: loads the audio at the path and decodes it. *)
Definition model_transcribe (model : Model Sample) (path : string)
  : M Sample TranscribeResult :=
  fun w =>
    match files w !! path with
    | Some (WavFile a) =>
        match model a with
        | inl e => Raise e w
        | inr r => Ok r (log (EvTranscribe path) w)
        end
    | _ => Raise RuntimeError w
    end.

(** * The script *)

Definition OUT_DIR : string := "./output-transcripts".

(** [int(x)] of a Python int. *)
Definition int (x : Z) : Z := x.

(** The defaults of [record_chunk(filename="temp.wav", duration=60)]. *)
Definition default_filename : string := "temp.wav".
Definition default_duration : Z := 60.

Definition record_chunk (filename : string) (duration : Z) : M Sample unit :=
  print ("Recording " +:+ str duration +:+ "s...") ;;
  let fs := 16000 in
  audio <- sd_rec (int (duration * fs)) fs 1 ;;
  sd_wait ;;
  sf_write filename audio fs.

Definition transcribe_to_file (MODEL : Model Sample) (wav_path : string)
  : M Sample unit :=
  result <- model_transcribe MODEL wav_path ;;
  now <- datetime_now ;;
  let ts := strftime "%Y-%m-%d_%H%M%S" now in
  let out_path := OUT_DIR +:+ "/voice_" +:+ ts +:+ ".txt" in
  f <- open_w out_path ;;
  file_write f (text result) ;;
  print ("Saved transcript to " +:+ out_path).

(** One pass through the body of [while True]. *)
Definition loop_body (MODEL : Model Sample) : M Sample unit :=
  record_chunk default_filename default_duration ;;
  transcribe_to_file MODEL "temp.wav" ;;
  time_sleep 2.

(** The first [n] passes of [while True]: the loop has no [break] and no
    condition, so it leaves a pass only by an exception. *)
Fixpoint while_true (n : nat) (body : M Sample unit) : M Sample unit :=
  match n with
  | O => ret tt
  | S n' => body ;; while_true n' body
  end.

(** Module initialisation. *)
Definition startup : M Sample (Model Sample) :=
  fun w =>
    match whisper_load_model env "base" with
    | inl e => Raise e w
    | inr MODEL => (os_makedirs OUT_DIR true ;; ret MODEL) w
    end.

(** The whole script, cut after [n] passes of the loop. *)
Definition script (n : nat) : M Sample unit :=
  MODEL <- startup ;;
  while_true n (loop_body MODEL).

End Program.

Arguments capture : simpl never.
Arguments str : simpl never.

(** * Vocabulary of the statements *)

(** The name [transcribe_to_file] builds from a timestamp. *)
Definition out_path (ts : string) : string :=
  OUT_DIR +:+ "/voice_" +:+ ts +:+ ".txt".

(** One decimal digit, the last one of [d]. *)
Definition digit (d : Z) : ascii := ascii_of_N (48 + Z.to_N (d `mod` 10)).

(** [DD] and [YYYY]: exactly two and exactly four decimal digits. *)
Definition DD (n : Z) : string :=
  String (digit (n `div` 10)) (String (digit n) EmptyString).

Definition YYYY (n : Z) : string :=
  String (digit (n `div` 1000)) (String (digit (n `div` 100))
    (String (digit (n `div` 10)) (String (digit n) EmptyString))).

(** [YYYY-MM-DD_HHMMSS] *)
Definition stamp_text (dt : DateTime) : string :=
  YYYY (year dt) +:+ "-" +:+ DD (month dt) +:+ "-" +:+ DD (day dt) +:+ "_"
  +:+ DD (hour dt) +:+ DD (minute dt) +:+ DD (second dt).

(** The entries of directory [d]: [os.listdir], as full paths. *)
Definition listdir {Sample} (d : string) (fs : gmap string (Node Sample)) : gset string :=
  filter (fun p => dirname p = d) (dom fs).

Definition is_wav {Sample} (o : option (Node Sample)) : bool :=
  match o with
  | Some (WavFile _) => true
  | _ => false
  end.

(** The paths that hold sound. *)
Definition wav_paths {Sample} (fs : gmap string (Node Sample)) : gset string :=
  filter (fun p => is_wav (fs !! p) = true) (dom fs).

(** The world a process starts in: the file system it finds, nothing
    printed, nothing recorded, the clock not yet read. *)
Definition boot {Sample} (fs : gmap string (Node Sample)) : World Sample :=
  {| files := fs; trace := []; n_rec := 0; n_now := 0 |}.

(** Where a computation leaves the world, however it ends. *)
Definition world_of {Sample A} (r : Result Sample A) : World Sample :=
  match r with
  | Ok _ w => w
  | Raise _ w => w
  end.

Definition is_mkdir (ev : Event) : bool :=
  match ev with
  | EvMkdir _ => true
  | _ => false
  end.

Definition is_print (ev : Event) : bool :=
  match ev with
  | EvPrint _ => true
  | _ => false
  end.

(** What every call made inside the loop may do: it creates no directory
    and writes sound to [temp.wav] only. *)
Definition quiet (ev : Event) : Prop :=
  is_mkdir ev = false /\ forall p, ev = EvSfWrite p -> p = "temp.wav".

(** What the loop leaves alone between two worlds: the trace only grows, by
    quiet calls; no path but [temp.wav] comes to hold sound; directories
    stay directories and nothing else becomes one. *)
Record loop_frame {Sample} (w w' : World Sample) : Prop := {
  frame_trace : exists evs, trace w' = trace w ++ evs /\ Forall quiet evs;
  frame_wav : forall p, p <> "temp.wav" ->
                is_wav (files w' !! p) = true -> is_wav (files w !! p) = true;
  frame_dir : forall p, files w' !! p = Some Dir <-> files w !! p = Some Dir
}.

(** A computation keeps a relation between the world it starts in and the
    world it leaves, whether it returns or raises. *)
Definition preserves {Sample A} (R : World Sample -> World Sample -> Prop)
    (m : M Sample A) : Prop :=
  forall w, R w (world_of (m w)).

Section Vocabulary.

Context {Sample : Type} (env : Env Sample).

(** The timestamp of the [k]-th clock reading. *)
Definition timestamp (k : nat) : string :=
  strftime "%Y-%m-%d_%H%M%S" (clock env k).

(** The chunk one pass records from a signal. *)
Definition chunk_of (sig : nat -> Sample) : Wav Sample :=
  {| wav_rate := 16000; wav_channels := 1;
     wav_data := capture sig (int (default_duration * 16000) * 1) |}.

(** The calls of one pass that writes text [t] to path [p]. *)
Definition pass_events (p t : string) : list Event :=
  [ EvPrint "Recording 60s..."; EvRec 960000 16000 1; EvWait;
    EvSfWrite "temp.wav";
    EvTranscribe "temp.wav"; EvNow; EvOpen p; EvWrite p t;
    EvPrint ("Saved transcript to " +:+ p);
    EvSleep 2 ].

(** A run of [n] passes in which nothing fails: the microphone delivers
    signal [sig k] to pass [k], the model decodes its chunk to [res k], and
    no directory sits where the script writes. *)
Record Healthy (MODEL : Model Sample) (sig : nat -> nat -> Sample)
    (res : nat -> TranscribeResult) (fs : gmap string (Node Sample)) (n : nat)
  : Prop := {
  mic_ok : forall k, (k < n)%nat -> mic env k = inr (sig k);
  model_ok : forall k, (k < n)%nat -> MODEL (chunk_of (sig k)) = inr (res k);
  temp_ok : fs !! "temp.wav" <> Some Dir;
  target_ok : forall k, (k < n)%nat -> fs !! out_path (timestamp k) <> Some Dir
}.

(** The files after [n] healthy passes. *)
Fixpoint files_after (sig : nat -> nat -> Sample) (res : nat -> TranscribeResult)
    (n : nat) (fs : gmap string (Node Sample)) : gmap string (Node Sample) :=
  match n with
  | O => fs
  | S k =>
      <[out_path (timestamp k) := TextFile (text (res k))]>
        (<["temp.wav" := WavFile (chunk_of (sig k))]> (files_after sig res k fs))
  end.

(** The calls of [n] healthy passes. *)
Definition trace_after (res : nat -> TranscribeResult) (n : nat) : list Event :=
  flat_map (fun k => pass_events (out_path (timestamp k)) (text (res k))) (seq 0 n).

(** The paths the first [n] passes write their transcripts to. *)
Definition written (n : nat) : list string :=
  map (fun k => out_path (timestamp k)) (seq 0 n).

(** The lines the first [n] passes print. *)
Definition console_after (n : nat) : list Event :=
  flat_map (fun k => [ EvPrint "Recording 60s...";
                       EvPrint ("Saved transcript to " +:+ out_path (timestamp k)) ])
           (seq 0 n).

(** What module initialisation does to the file system found. *)
Definition startup_events (fs : gmap string (Node Sample)) : list Event :=
  match fs !! OUT_DIR with
  | None => [EvMkdir OUT_DIR]
  | Some _ => []
  end.

(** A healthy run of the whole script from the file system [fs]: the model
    loads, and the name of the output directory is free or a directory. *)
Record HealthyRun (MODEL : Model Sample) (sig : nat -> nat -> Sample)
    (res : nat -> TranscribeResult) (fs : gmap string (Node Sample)) (n : nat)
  : Prop := {
  load_ok : whisper_load_model env "base" = inr MODEL;
  dir_ok : fs !! OUT_DIR = None \/ fs !! OUT_DIR = Some Dir;
  passes_ok : Healthy MODEL sig res fs n
}.

(** The world after [n] passes of a healthy run. *)
Definition world_after (sig : nat -> nat -> Sample) (res : nat -> TranscribeResult)
    (n : nat) (fs : gmap string (Node Sample)) : World Sample :=
  {| files := files_after sig res n (<[OUT_DIR := Dir]> fs);
     trace := startup_events fs ++ trace_after res n;
     n_rec := n; n_now := n |}.

End Vocabulary.

(** ** Vocabulary of the further properties *)

(** What the script may do to the files between two worlds: it opens for
    writing only paths directly inside the output directory, a path other
    than [temp.wav] that it did not open keeps what it held, and no path
    is ever removed. *)
Record confined {Sample} (w w' : World Sample) : Prop := {
  conf_trace :
    exists evs,
      trace w' = trace w ++ evs /\
      (forall p, In (EvOpen p) evs -> dirname p = OUT_DIR) /\
      (forall p, p <> "temp.wav" -> ~ In (EvOpen p) evs ->
                 files w' !! p = files w !! p);
  conf_kept : forall p, is_Some (files w !! p) -> is_Some (files w' !! p)
}.

(** A clock reading, to the second, as the number [YYYYMMDDHHMMSS]. *)
Definition stamp_key (dt : DateTime) : Z :=
  ((((year dt * 100 + month dt) * 100 + day dt) * 100 + hour dt) * 100
   + minute dt) * 100 + second dt.

(** The timestamps the first [n] passes read, in order, repeats included. *)
Definition stamps_read {Sample} (env : Env Sample) (n : nat) : list string :=
  map (timestamp env) (seq 0 n).

(** * Sample environments *)

(** Pass [k] hears the constant signal [k]. *)
Definition demo_signal (k : nat) : nat -> Z := fun _ => Z.of_nat k.

(** A model that spells the first sample of the chunk. *)
Definition demo_model : Model Z :=
  fun a => inr {| text := match wav_data a with
                          | x :: _ => str x
                          | [] => EmptyString
                          end;
                  language := "en" |}.

Definition demo_res (k : nat) : TranscribeResult :=
  {| text := str (Z.of_nat k); language := "en" |}.

(** A model that hears nothing. *)
Definition mute_model : Model Z :=
  fun _ => inr {| text := EmptyString; language := "en" |}.

(** A model that cannot decode. *)
Definition broken_model : Model Z := fun _ => inl RuntimeError.

(** A clock that moves one second per reading, from 2025-11-02 01:30:00. *)
Definition demo_clock (k : nat) : DateTime :=
  {| year := 2025; month := 11; day := 2; hour := 1; minute := 30;
     second := Z.of_nat k; microsecond := 0 |}.

(** A clock whose readings all fall into one second. *)
Definition stuck_clock (k : nat) : DateTime :=
  {| year := 2025; month := 11; day := 2; hour := 1; minute := 30;
     second := 0; microsecond := Z.of_nat k |}.

Definition demo_env : Env Z :=
  {| whisper_load_model := fun _ => inr demo_model;
     mic := fun k => inr (demo_signal k);
     clock := demo_clock |}.

Definition stuck_env : Env Z :=
  {| whisper_load_model := fun _ => inr demo_model;
     mic := fun k => inr (demo_signal k);
     clock := stuck_clock |}.

(** The input device is gone after the first recording. *)
Definition deaf_env : Env Z :=
  {| whisper_load_model := fun _ => inr demo_model;
     mic := fun k => match k with
                     | O => inr (demo_signal 0)
                     | S _ => inl PortAudioError
                     end;
     clock := demo_clock |}.

(** The model loads but cannot decode anything. *)
Definition broken_env : Env Z :=
  {| whisper_load_model := fun _ => inr broken_model;
     mic := fun k => inr (demo_signal k);
     clock := demo_clock |}.

(** A model that decodes silence only: it fails unless the chunk starts
    with the sample 0. *)
Definition picky_model : Model Z :=
  fun a => match wav_data a with
           | x :: _ => if bool_decide (x = 0)
                       then inr {| text := str x; language := "en" |}
                       else inl RuntimeError
           | [] => inl RuntimeError
           end.

Definition picky_env : Env Z :=
  {| whisper_load_model := fun _ => inr picky_model;
     mic := fun k => inr (demo_signal k);
     clock := demo_clock |}.

(** The model cannot be loaded. *)
Definition unloadable_env : Env Z :=
  {| whisper_load_model := fun _ => inl RuntimeError;
     mic := fun k => inr (demo_signal k);
     clock := demo_clock |}.

(** A file system in which a regular file has the name of the output
    directory. *)
Definition name_taken_fs : gmap string (Node Z) :=
  <[OUT_DIR := TextFile "notes"]> ∅.

(** A file system in which [temp.wav] is a directory. *)
Definition temp_dir_fs : gmap string (Node Z) :=
  <["temp.wav" := Dir]> ∅.

(** A file system whose output directory holds a directory under the name
    the second transcript of [demo_clock] would get. *)
Definition blocked_fs : gmap string (Node Z) :=
  <["./output-transcripts/voice_2025-11-02_013001.txt" := Dir]>
    (<[OUT_DIR := Dir]> ∅).

(** A file system with nothing in it. *)
Definition empty_fs : gmap string (Node Z) := ∅.

(** A one-sample sound file, and a world that holds it as a stale
    [temp.wav] next to an existing output directory. *)
Definition stale_wav : Wav Z := {| wav_rate := 16000; wav_channels := 1; wav_data := [7] |}.

Definition stale_world : World Z :=
  {| files := <["temp.wav" := WavFile stale_wav]> (<[OUT_DIR := Dir]> ∅);
     trace := []; n_rec := 0; n_now := 0 |}.

(** A world with a sound file and no output directory. *)
Definition no_dir_world : World Z :=
  {| files := <["temp.wav" := WavFile stale_wav]> ∅;
     trace := []; n_rec := 0; n_now := 0 |}.

(** * Strings and paths *)

Lemma append_cons (c : ascii) (s t : string) : String c s +:+ t = String c (s +:+ t).
Proof. reflexivity. Qed.

Lemma append_nil_l (s : string) : EmptyString +:+ s = s.
Proof. reflexivity. Qed.

Lemma append_nil_r (s : string) : s +:+ EmptyString = s.
Proof. induction s as [|c s IH]; [reflexivity|]. now rewrite append_cons, IH. Qed.

Lemma append_assoc (s1 s2 s3 : string) : (s1 +:+ s2) +:+ s3 = s1 +:+ s2 +:+ s3.
Proof. induction s1 as [|c s1 IH]; [reflexivity|]. now rewrite !append_cons, IH. Qed.

Lemma length_append (s1 s2 : string) :
  String.length (s1 +:+ s2) = (String.length s1 + String.length s2)%nat.
Proof.
  induction s1 as [|c s1 IH]; [reflexivity|].
  rewrite append_cons. cbn [String.length]. now rewrite IH.
Qed.

Lemma append_inj_r (s1 s2 e : string) : s1 +:+ e = s2 +:+ e -> s1 = s2.
Proof.
  revert s2. induction s1 as [|c s1 IH]; intros [|d s2] H.
  - reflexivity.
  - apply (f_equal String.length) in H.
    rewrite append_nil_l, append_cons in H. cbn [String.length] in H.
    rewrite length_append in H. lia.
  - apply (f_equal String.length) in H.
    rewrite append_nil_l, append_cons in H. cbn [String.length] in H.
    rewrite length_append in H. lia.
  - rewrite !append_cons in H. injection H as -> H. f_equal. now apply IH.
Qed.

Lemma has_slash_app (s1 s2 : string) :
  has_slash (s1 +:+ s2) = has_slash s1 || has_slash s2.
Proof.
  induction s1 as [|c s1 IH]; [reflexivity|].
  rewrite append_cons. cbn [has_slash]. rewrite IH. now destruct (is_slash c).
Qed.

Lemma head_of_no_slash (s : string) : has_slash s = false -> head_of s = EmptyString.
Proof. destruct s as [|c s]; [reflexivity|]. intros H. cbn [head_of]. now rewrite H. Qed.

Lemma head_of_app_slash (d name : string) :
  has_slash name = false ->
  head_of (d +:+ String slash name) = d +:+ String slash EmptyString.
Proof.
  intros Hname. induction d as [|c d IH].
  - rewrite !append_nil_l. cbn [head_of has_slash].
    replace (is_slash slash) with true by reflexivity.
    cbn [orb]. now rewrite head_of_no_slash.
  - rewrite !append_cons. cbn [head_of]. rewrite IH.
    replace (has_slash (String c (d +:+ String slash name))) with true; [reflexivity|].
    cbn [has_slash]. rewrite has_slash_app. cbn [has_slash].
    replace (is_slash slash) with true by reflexivity.
    cbn [orb]. now rewrite !orb_true_r.
Qed.

Lemma dirname_out_path (ts : string) : has_slash ts = false -> dirname (out_path ts) = OUT_DIR.
Proof.
  intros Hts. unfold dirname, out_path.
  change ("/voice_" +:+ ts +:+ ".txt") with (String slash ("voice_" +:+ ts +:+ ".txt")).
  rewrite head_of_app_slash; [reflexivity|].
  rewrite !has_slash_app, Hts. reflexivity.
Qed.

Lemma out_path_inj (ts1 ts2 : string) : out_path ts1 = out_path ts2 -> ts1 = ts2.
Proof.
  unfold out_path. intros H.
  apply (inj (String.app OUT_DIR)), (inj (String.app "/voice_")) in H.
  now apply append_inj_r in H.
Qed.

Lemma out_path_ne_temp (ts : string) : out_path ts <> "temp.wav".
Proof. discriminate. Qed.

Lemma out_path_ne_OUT_DIR (ts : string) : out_path ts <> OUT_DIR.
Proof.
  unfold out_path. rewrite <- (append_nil_r OUT_DIR) at 2.
  intros H. apply (inj (String.app OUT_DIR)) in H. discriminate.
Qed.

(** ** Decimal text has no slash *)

Lemma pretty_N_char_no_slash (x : N) : is_slash (pretty_N_char x) = false.
Proof. unfold pretty_N_char. now repeat case_match. Qed.

Lemma pretty_N_go_no_slash (x : N) (s : string) :
  has_slash s = false -> has_slash (pretty_N_go x s) = false.
Proof.
  revert s. induction (N.lt_wf_0 x) as [x _ IH]; intros s Hs.
  assert (x = 0 \/ 0 < x)%N as [->|Hx] by lia.
  - now rewrite pretty_N_go_0.
  - rewrite pretty_N_go_step by assumption. apply IH.
    + now apply N.div_lt.
    + cbn [has_slash]. now rewrite pretty_N_char_no_slash, Hs.
Qed.

Lemma pretty_N_no_slash (x : N) : has_slash (pretty x) = false.
Proof.
  unfold pretty, pretty_N. case_decide; [reflexivity|].
  now apply pretty_N_go_no_slash.
Qed.

Lemma str_no_slash (n : Z) : has_slash (str n) = false.
Proof.
  unfold str, pretty, pretty_Z. destruct n as [|p|p].
  - reflexivity.
  - apply (pretty_N_no_slash (N.pos p)).
  - rewrite has_slash_app. apply (pretty_N_no_slash (N.pos p)).
Qed.

Lemma zeros_no_slash (n : nat) : has_slash (zeros n) = false.
Proof. induction n as [|n IH]; [reflexivity|]. cbn [zeros has_slash]. exact IH. Qed.

Lemma zfill_no_slash (w : nat) (s : string) :
  has_slash s = false -> has_slash (zfill w s) = false.
Proof. intros H. unfold zfill. now rewrite has_slash_app, zeros_no_slash, H. Qed.

Lemma strftime_stamp (dt : DateTime) :
  strftime "%Y-%m-%d_%H%M%S" dt =
  zfill 4 (str (year dt)) +:+ "-" +:+ zfill 2 (str (month dt)) +:+ "-"
  +:+ zfill 2 (str (day dt)) +:+ "_" +:+ zfill 2 (str (hour dt))
  +:+ zfill 2 (str (minute dt)) +:+ zfill 2 (str (second dt)).
Proof.
  cbn [strftime directive bool_decide decide_rel]. cbn.
  rewrite append_nil_r. reflexivity.
Qed.

Lemma strftime_stamp_no_slash (dt : DateTime) :
  has_slash (strftime "%Y-%m-%d_%H%M%S" dt) = false.
Proof.
  rewrite strftime_stamp.
  rewrite !has_slash_app, !zfill_no_slash by apply str_no_slash.
  reflexivity.
Qed.

Lemma same_second_stamp (dt1 dt2 : DateTime) :
  same_second dt1 dt2 ->
  strftime "%Y-%m-%d_%H%M%S" dt1 = strftime "%Y-%m-%d_%H%M%S" dt2.
Proof.
  intros (Hy & Hm & Hd & HH & HM & HS). rewrite !strftime_stamp.
  now rewrite Hy, Hm, Hd, HH, HM, HS.
Qed.

(** ** Fixed-width fields *)

(** A property checked on every number below a bound holds below it. *)
Lemma below_bound (P : Z -> bool) (bound : Z) :
  forallb P (map Z.of_nat (seq 0 (Z.to_nat bound))) = true ->
  forall n, 0 <= n < bound -> P n = true.
Proof.
  intros Hall n Hn. rewrite forallb_forall in Hall. apply Hall.
  apply in_map_iff. exists (Z.to_nat n). split; [lia|].
  apply in_seq. lia.
Qed.

Lemma zfill2_DD (n : Z) : 0 <= n < 100 -> zfill 2 (str n) = DD n.
Proof.
  intros Hn. apply String.eqb_eq.
  apply (below_bound (fun n => String.eqb (zfill 2 (str n)) (DD n)) 100); [|lia].
  vm_compute. reflexivity.
Qed.

Lemma zfill4_YYYY (n : Z) : 0 <= n < 10000 -> zfill 4 (str n) = YYYY n.
Proof.
  intros Hn. apply String.eqb_eq.
  apply (below_bound (fun n => String.eqb (zfill 4 (str n)) (YYYY n)) 10000); [|lia].
  vm_compute. reflexivity.
Qed.

Lemma strftime_stamp_text (dt : DateTime) :
  valid_datetime dt -> strftime "%Y-%m-%d_%H%M%S" dt = stamp_text dt.
Proof.
  intros (Hy & Hm & Hd & HH & HM & HS & _).
  rewrite strftime_stamp. unfold stamp_text.
  rewrite zfill4_YYYY, !zfill2_DD by lia. reflexivity.
Qed.


(** ** A timestamp determines its second *)

Lemma digit_inj (a b : Z) : digit a = digit b -> a `mod` 10 = b `mod` 10.
Proof.
  unfold digit. intros H. apply (f_equal N_of_ascii) in H.
  pose proof (Z.mod_pos_bound a 10 eq_refl). pose proof (Z.mod_pos_bound b 10 eq_refl).
  assert (Hlt : forall x, 0 <= x < 10 -> (48 + Z.to_N x < 256)%N).
  { intros x Hx. change 256%N with (48 + 208)%N. apply N.add_lt_mono_l.
    change 208%N with (Z.to_N 208). apply Z2N.inj_lt; lia. }
  rewrite !N_ascii_embedding in H by now apply Hlt.
  apply N.add_cancel_l in H. apply Z2N.inj in H; [exact H | lia | lia].
Qed.

Lemma DD_inj (n m : Z) : 0 <= n < 100 -> 0 <= m < 100 -> DD n = DD m -> n = m.
Proof.
  intros Hn Hm H. unfold DD in H. injection H as H1 H0.
  apply digit_inj in H1, H0. Z.to_euclidean_division_equations. lia.
Qed.

Lemma YYYY_inj (n m : Z) : 0 <= n < 10000 -> 0 <= m < 10000 -> YYYY n = YYYY m -> n = m.
Proof.
  intros Hn Hm H. unfold YYYY in H. injection H as H3 H2 H1 H0.
  apply digit_inj in H3, H2, H1, H0. Z.to_euclidean_division_equations. lia.
Qed.

(** Reads one field off an equation between two stamps. *)
Ltac stamp_field H :=
  unfold stamp_text, YYYY, DD in *; cbv [String.append] in H;
  injection H; intros; congruence.

Lemma stamp_text_inj (dt1 dt2 : DateTime) :
  valid_datetime dt1 -> valid_datetime dt2 ->
  stamp_text dt1 = stamp_text dt2 -> same_second dt1 dt2.
Proof.
  intros (Hy1 & Hm1 & Hd1 & HH1 & HM1 & HS1 & _) (Hy2 & Hm2 & Hd2 & HH2 & HM2 & HS2 & _) H.
  assert (HY : YYYY (year dt1) = YYYY (year dt2)) by stamp_field H.
  assert (Hmo : DD (month dt1) = DD (month dt2)) by stamp_field H.
  assert (Hda : DD (day dt1) = DD (day dt2)) by stamp_field H.
  assert (Hho : DD (hour dt1) = DD (hour dt2)) by stamp_field H.
  assert (Hmi : DD (minute dt1) = DD (minute dt2)) by stamp_field H.
  assert (Hse : DD (second dt1) = DD (second dt2)) by stamp_field H.
  split; [apply YYYY_inj; (assumption || lia)|].
  repeat split; apply DD_inj; (assumption || lia).
Qed.

(** Two valid readings get the same timestamp exactly when they fall into
    the same second. *)
Lemma strftime_stamp_same_second (dt1 dt2 : DateTime) :
  valid_datetime dt1 -> valid_datetime dt2 ->
  strftime "%Y-%m-%d_%H%M%S" dt1 = strftime "%Y-%m-%d_%H%M%S" dt2 <->
  same_second dt1 dt2.
Proof.
  intros H1 H2. split; [|apply same_second_stamp].
  rewrite !strftime_stamp_text by assumption. now apply stamp_text_inj.
Qed.

(** * The monad *)

Section Proofs.

Context {Sample : Type} (env : Env Sample).

Implicit Types (w : World Sample) (fs : gmap string (Node Sample)).

Lemma bind_ok {A B} (m : M Sample A) (k : A -> M Sample B) w a w1 :
  m w = Ok a w1 -> bind m k w = k a w1.
Proof. intros H. unfold bind. now rewrite H. Qed.

Lemma bind_raise {A B} (m : M Sample A) (k : A -> M Sample B) w e w1 :
  m w = Raise e w1 -> bind m k w = Raise e w1.
Proof. intros H. unfold bind. now rewrite H. Qed.

Lemma bind_assoc {A B C} (m : M Sample A) (k : A -> M Sample B) (h : B -> M Sample C) w :
  bind (bind m k) h w = bind m (fun a => bind (k a) h) w.
Proof. unfold bind. now destruct (m w). Qed.

(** * One call of each function *)

Lemma open_w_ok (path : string) w :
  files w !! path <> Some Dir -> parent_ok (files w) path = true ->
  open_w path w =
  Ok path (log (EvOpen path) (set_files (insert path (TextFile EmptyString)) w)).
Proof.
  intros Hnd Hp. unfold open_w. rewrite Hp.
  destruct (files w !! path) as [[| a | s]|]; congruence.
Qed.

Lemma sf_write_ok (file : string) (data : Buffer Sample) (rate : Z) w :
  files w !! file <> Some Dir -> parent_ok (files w) file = true ->
  sf_write file data rate w =
  Ok tt (log (EvSfWrite file)
           (set_files (insert file (WavFile {| wav_rate := rate;
                                               wav_channels := buf_channels data;
                                               wav_data := buf_data data |})) w)).
Proof.
  intros Hnd Hp. unfold sf_write. rewrite Hp.
  destruct (files w !! file) as [[| a | s]|]; congruence.
Qed.

Lemma record_chunk_ok (filename : string) (duration : Z) (sig : nat -> Sample) w :
  0 <= duration ->
  mic env (n_rec w) = inr sig ->
  files w !! filename <> Some Dir ->
  parent_ok (files w) filename = true ->
  record_chunk env filename duration w =
  Ok tt {| files := <[filename := WavFile {| wav_rate := 16000; wav_channels := 1;
                                            wav_data := capture sig (duration * 16000 * 1) |}]>
                      (files w);
           trace := trace w ++ [ EvPrint ("Recording " +:+ str duration +:+ "s...");
                                 EvRec (duration * 16000) 16000 1; EvWait;
                                 EvSfWrite filename ];
           n_rec := S (n_rec w);
           n_now := n_now w |}.
Proof.
  intros Hd Hmic Hnd Hp. unfold record_chunk.
  rewrite (bind_ok _ _ _ tt (log (EvPrint ("Recording " +:+ str duration +:+ "s...")) w))
    by reflexivity.
  unfold bind at 1. unfold sd_rec, int. cbn [n_rec log].
  rewrite bool_decide_eq_false_2 by lia. rewrite Hmic.
  unfold bind at 1. unfold sd_wait, emit.
  rewrite sf_write_ok by assumption.
  unfold log, set_files, tick_rec. cbn.
  rewrite <- !app_assoc. reflexivity.
Qed.

Lemma parent_ok_out_path (ts : string) fs :
  has_slash ts = false -> fs !! OUT_DIR = Some Dir -> parent_ok fs (out_path ts) = true.
Proof.
  intros Hts Hdir. unfold parent_ok. rewrite dirname_out_path by assumption.
  rewrite bool_decide_eq_false_2 by discriminate. now rewrite Hdir.
Qed.

Lemma transcribe_to_file_ok (MODEL : Model Sample) (wav_path : string)
    (a : Wav Sample) (r : TranscribeResult) w :
  let p := out_path (timestamp env (n_now w)) in
  files w !! wav_path = Some (WavFile a) ->
  MODEL a = inr r ->
  files w !! OUT_DIR = Some Dir ->
  files w !! p <> Some Dir ->
  transcribe_to_file env MODEL wav_path w =
  Ok tt {| files := <[p := TextFile (text r)]> (files w);
           trace := trace w ++ [ EvTranscribe wav_path; EvNow; EvOpen p;
                                 EvWrite p (text r);
                                 EvPrint ("Saved transcript to " +:+ p) ];
           n_rec := n_rec w;
           n_now := S (n_now w) |}.
Proof.
  intros p Hwav Hmodel Hdir Hnd. unfold transcribe_to_file.
  unfold bind at 1. unfold model_transcribe. rewrite Hwav, Hmodel.
  unfold bind at 1. unfold datetime_now.
  fold (timestamp env (n_now (log (EvTranscribe wav_path) w))).
  fold (out_path (timestamp env (n_now (log (EvTranscribe wav_path) w)))).
  cbn [n_now log]. fold p.
  unfold bind at 1. rewrite open_w_ok; cycle 1.
  { exact Hnd. }
  { apply parent_ok_out_path; [apply strftime_stamp_no_slash | exact Hdir]. }
  unfold bind at 1. unfold file_write. cbn [files log set_files tick_now].
  rewrite lookup_insert_eq. rewrite append_nil_l.
  unfold print, emit, log, set_files, tick_now. cbn [files trace n_rec n_now].
  rewrite insert_insert_eq. rewrite <- !app_assoc. reflexivity.
Qed.

(** * One pass *)

Lemma loop_body_ok (MODEL : Model Sample) (sig : nat -> Sample)
    (r : TranscribeResult) w :
  let p := out_path (timestamp env (n_now w)) in
  mic env (n_rec w) = inr sig ->
  MODEL (chunk_of sig) = inr r ->
  files w !! "temp.wav" <> Some Dir ->
  files w !! OUT_DIR = Some Dir ->
  files w !! p <> Some Dir ->
  loop_body env MODEL w =
  Ok tt {| files := <[p := TextFile (text r)]>
                      (<["temp.wav" := WavFile (chunk_of sig)]> (files w));
           trace := trace w ++ pass_events p (text r);
           n_rec := S (n_rec w);
           n_now := S (n_now w) |}.
Proof.
  intros p Hmic Hmodel Htmp Hdir Hnd. unfold loop_body.
  unfold bind at 1.
  rewrite (record_chunk_ok default_filename default_duration sig w);
    [| unfold default_duration; lia | exact Hmic | exact Htmp | reflexivity].
  unfold bind at 1.
  rewrite (transcribe_to_file_ok MODEL "temp.wav" (chunk_of sig) r); cbn [files n_now].
  - unfold time_sleep, emit, log. cbn [files trace n_rec n_now].
    fold p. rewrite <- !app_assoc. reflexivity.
  - apply lookup_insert_eq.
  - exact Hmodel.
  - rewrite lookup_insert_ne by discriminate. exact Hdir.
  - rewrite lookup_insert_ne by (symmetry; apply out_path_ne_temp). exact Hnd.
Qed.

(** * The loop *)

Lemma bind_ret_r {A} (m : M Sample A) w : bind m ret w = m w.
Proof. unfold bind, ret. now destruct (m w). Qed.

Lemma bind_ext {A B} (m : M Sample A) (k k' : A -> M Sample B) w :
  (forall a w', k a w' = k' a w') -> bind m k w = bind m k' w.
Proof. intros H. unfold bind. destruct (m w); [apply H | reflexivity]. Qed.

(** The last pass of [S n] passes comes after the first [n]. *)
Lemma while_true_snoc (n : nat) (body : M Sample unit) w :
  while_true (S n) body w = bind (while_true n body) (fun _ => body) w.
Proof.
  revert w. induction n as [|n IH]; intros w.
  - cbn [while_true]. unfold bind, ret. now destruct (body w) as [[] w'|e w'].
  - transitivity (bind body (fun _ => bind (while_true n body) (fun _ => body)) w).
    + change (while_true (S (S n)) body w)
        with (bind body (fun _ => while_true (S n) body) w).
      apply bind_ext. intros _ w'. apply IH.
    + symmetry. apply (bind_assoc body (fun _ => while_true n body) (fun _ => body) w).
Qed.

Lemma Healthy_S (MODEL : Model Sample) sig res fs (n : nat) :
  Healthy env MODEL sig res fs (S n) -> Healthy env MODEL sig res fs n.
Proof. intros [H1 H2 H3 H4]. split; auto with lia. Qed.

Lemma Healthy_le (MODEL : Model Sample) sig res fs (n m : nat) :
  (n <= m)%nat -> Healthy env MODEL sig res fs m -> Healthy env MODEL sig res fs n.
Proof. intros Hle [H1 H2 H3 H4]. split; auto with lia. Qed.

Lemma files_after_Dir sig res (n : nat) fs (p : string) :
  files_after env sig res n fs !! p = Some Dir -> fs !! p = Some Dir.
Proof.
  induction n as [|n IH]; [trivial|]. cbn [files_after].
  rewrite !lookup_insert. repeat case_decide; try discriminate. exact IH.
Qed.

Lemma files_after_other sig res (n : nat) fs (p : string) :
  p <> "temp.wav" ->
  (forall k, (k < n)%nat -> p <> out_path (timestamp env k)) ->
  files_after env sig res n fs !! p = fs !! p.
Proof.
  intros Htmp. induction n as [|n IH]; intros Hk; [reflexivity|].
  cbn [files_after].
  rewrite lookup_insert_ne by (intros E; apply (Hk n); [lia | now symmetry]).
  rewrite lookup_insert_ne by congruence.
  apply IH. intros k Hlt. apply Hk. lia.
Qed.

Lemma files_after_OUT_DIR sig res (n : nat) fs :
  files_after env sig res n fs !! OUT_DIR = fs !! OUT_DIR.
Proof.
  apply files_after_other; [discriminate|].
  intros k _ E. symmetry in E. now apply out_path_ne_OUT_DIR in E.
Qed.

Lemma trace_after_S res (n : nat) :
  trace_after env res (S n) =
  trace_after env res n ++ pass_events (out_path (timestamp env n)) (text (res n)).
Proof.
  unfold trace_after. rewrite seq_S, flat_map_app. cbn [flat_map Nat.add].
  now rewrite app_nil_r.
Qed.

(** [n] healthy passes, from a world whose output directory exists. *)
Lemma while_true_healthy (MODEL : Model Sample) sig res fs (tr : list Event) (n : nat) :
  Healthy env MODEL sig res fs n ->
  fs !! OUT_DIR = Some Dir ->
  while_true n (loop_body env MODEL)
    {| files := fs; trace := tr; n_rec := 0; n_now := 0 |} =
  Ok tt {| files := files_after env sig res n fs;
           trace := tr ++ trace_after env res n;
           n_rec := n; n_now := n |}.
Proof.
  intros Hh Hdir. induction n as [|n IH].
  - cbn. now rewrite app_nil_r.
  - rewrite while_true_snoc.
    rewrite (bind_ok _ _ _ _ _ (IH (Healthy_S _ _ _ _ _ Hh))).
    destruct Hh as [Hmic Hmodel Htmp Htarget].
    rewrite (loop_body_ok MODEL (sig n) (res n)); cbn [files trace n_rec n_now].
    + rewrite trace_after_S, app_assoc. reflexivity.
    + apply Hmic. lia.
    + apply Hmodel. lia.
    + intros E. now apply files_after_Dir in E.
    + now rewrite files_after_OUT_DIR.
    + intros E. apply files_after_Dir in E. revert E. apply Htarget. lia.
Qed.

(** * Module initialisation *)

Lemma startup_absent (MODEL : Model Sample) fs :
  whisper_load_model env "base" = inr MODEL ->
  fs !! OUT_DIR = None ->
  startup env (boot fs) =
  Ok MODEL {| files := <[OUT_DIR := Dir]> fs; trace := [EvMkdir OUT_DIR];
              n_rec := 0; n_now := 0 |}.
Proof.
  intros Hload Habs. unfold startup. rewrite Hload.
  unfold bind, os_makedirs. cbn [files boot]. now rewrite Habs.
Qed.

Lemma startup_present (MODEL : Model Sample) fs :
  whisper_load_model env "base" = inr MODEL ->
  fs !! OUT_DIR = Some Dir ->
  startup env (boot fs) = Ok MODEL (boot fs).
Proof.
  intros Hload Hdir. unfold startup. rewrite Hload.
  unfold bind, os_makedirs. cbn [files boot]. now rewrite Hdir.
Qed.

Lemma startup_ok (MODEL : Model Sample) fs :
  whisper_load_model env "base" = inr MODEL ->
  fs !! OUT_DIR = None \/ fs !! OUT_DIR = Some Dir ->
  startup env (boot fs) =
  Ok MODEL {| files := <[OUT_DIR := Dir]> fs; trace := startup_events fs;
              n_rec := 0; n_now := 0 |}.
Proof.
  intros Hload [Habs|Hdir].
  - rewrite (startup_absent MODEL) by assumption. unfold startup_events. now rewrite Habs.
  - rewrite (startup_present MODEL) by assumption. unfold startup_events, boot.
    now rewrite Hdir, insert_id.
Qed.

Lemma Healthy_started (MODEL : Model Sample) sig res fs (n : nat) :
  Healthy env MODEL sig res fs n ->
  Healthy env MODEL sig res (<[OUT_DIR := Dir]> fs) n.
Proof.
  intros [H1 H2 H3 H4]. split; [exact H1 | exact H2 | |].
  - now rewrite lookup_insert_ne by discriminate.
  - intros k Hk. rewrite lookup_insert_ne; [now apply H4|].
    intros E. symmetry in E. now apply out_path_ne_OUT_DIR in E.
Qed.

Lemma HealthyRun_le (MODEL : Model Sample) sig res fs (n m : nat) :
  (n <= m)%nat ->
  HealthyRun env MODEL sig res fs m -> HealthyRun env MODEL sig res fs n.
Proof. intros Hle [H1 H2 H3]. split; [exact H1 | exact H2 | now apply (Healthy_le _ _ _ _ n m)]. Qed.

(** The whole script, healthy for [n] passes. *)
Lemma script_healthy (MODEL : Model Sample) sig res fs (n : nat) :
  HealthyRun env MODEL sig res fs n ->
  script env n (boot fs) = Ok tt (world_after env sig res n fs).
Proof.
  intros [Hload Hdir Hh]. unfold script.
  rewrite (bind_ok _ _ _ _ _ (startup_ok MODEL fs Hload Hdir)).
  rewrite (while_true_healthy MODEL sig res); [reflexivity | |].
  - now apply Healthy_started.
  - apply lookup_insert_eq.
Qed.

(** * What the loop leaves alone *)

Lemma loop_frame_refl w : loop_frame w w.
Proof.
  split; [|tauto..]. exists []. split; [now rewrite app_nil_r | constructor].
Qed.

Lemma loop_frame_trans w1 w2 w3 : loop_frame w1 w2 -> loop_frame w2 w3 -> loop_frame w1 w3.
Proof.
  intros [(e1 & T1 & Q1) W1 D1] [(e2 & T2 & Q2) W2 D2]. split.
  - exists (e1 ++ e2). split; [now rewrite T2, T1, app_assoc | now apply Forall_app].
  - intros p Hp H3. apply W1, W2; assumption.
  - intros p. now rewrite D2.
Qed.

Lemma preserves_bind {A B} (m : M Sample A) (k : A -> M Sample B) :
  preserves loop_frame m -> (forall a, preserves loop_frame (k a)) ->
  preserves loop_frame (bind m k).
Proof.
  intros Hm Hk w. specialize (Hm w). unfold bind.
  destruct (m w) as [a w1|e w1]; cbn [world_of] in *; [|exact Hm].
  eapply loop_frame_trans; [exact Hm | apply Hk].
Qed.

Lemma preserves_ret {A} (a : A) : preserves (Sample := Sample) loop_frame (ret a).
Proof. intros w. apply loop_frame_refl. Qed.

Lemma loop_frame_call (ev : Event) w w' :
  files w' = files w -> trace w' = trace w ++ [ev] -> quiet ev -> loop_frame w w'.
Proof.
  intros Hf Ht Hq. split.
  - exists [ev]. split; [exact Ht | constructor; [exact Hq | constructor]].
  - intros p _. now rewrite Hf.
  - intros p. now rewrite Hf.
Qed.

Lemma loop_frame_log (ev : Event) w : quiet ev -> loop_frame w (log ev w).
Proof. now apply loop_frame_call. Qed.

Lemma preserves_emit (ev : Event) : quiet ev -> preserves (Sample := Sample) loop_frame (emit ev).
Proof. intros Hq w. now apply loop_frame_log. Qed.

Lemma quiet_simple (ev : Event) :
  is_mkdir ev = false -> (forall p, ev <> EvSfWrite p) -> quiet ev.
Proof. intros H1 H2. split; [exact H1|]. intros p E. now apply H2 in E. Qed.

Lemma preserves_print (line : string) : preserves (Sample := Sample) loop_frame (print line).
Proof. apply preserves_emit, quiet_simple; [reflexivity | discriminate]. Qed.

Lemma preserves_time_sleep (secs : Z) : preserves (Sample := Sample) loop_frame (time_sleep secs).
Proof. apply preserves_emit, quiet_simple; [reflexivity | discriminate]. Qed.

Lemma preserves_sd_wait : preserves (Sample := Sample) loop_frame sd_wait.
Proof. apply preserves_emit, quiet_simple; [reflexivity | discriminate]. Qed.

Lemma preserves_datetime_now : preserves loop_frame (datetime_now env).
Proof.
  intros w. unfold datetime_now. cbn [world_of].
  apply (loop_frame_call EvNow); [reflexivity | reflexivity |].
  apply quiet_simple; [reflexivity | discriminate].
Qed.

Lemma preserves_sd_rec (frames rate channels : Z) :
  preserves loop_frame (sd_rec env frames rate channels).
Proof.
  intros w. unfold sd_rec. case_bool_decide; [apply loop_frame_refl|].
  destruct (mic env (n_rec w)) as [e|sig]; cbn [world_of]; [apply loop_frame_refl|].
  eapply loop_frame_call; [reflexivity | reflexivity |].
  apply quiet_simple; [reflexivity | discriminate].
Qed.

Lemma preserves_model_transcribe (MODEL : Model Sample) (path : string) :
  preserves loop_frame (model_transcribe MODEL path).
Proof.
  intros w. unfold model_transcribe.
  destruct (files w !! path) as [[| a | s]|]; cbn [world_of]; try apply loop_frame_refl.
  destruct (MODEL a) as [e|r]; cbn [world_of]; [apply loop_frame_refl|].
  apply loop_frame_log, quiet_simple; [reflexivity | discriminate].
Qed.

(** Replacing what is no directory by a file. *)
Lemma loop_frame_put (path : string) (node : Node Sample) (ev : Event) w :
  files w !! path <> Some Dir -> node <> Dir ->
  (path = "temp.wav" \/ is_wav (Some node) = false) ->
  quiet ev ->
  loop_frame w (log ev (set_files (insert path node) w)).
Proof.
  intros Hnd Hnode Hwav Hq. split; cbn [files trace log set_files].
  - exists [ev]. split; [reflexivity | constructor; [exact Hq | constructor]].
  - intros p Hp. rewrite lookup_insert. case_decide as E; [|trivial].
    subst p. destruct Hwav as [->|Hw]; [contradiction | congruence].
  - intros p. rewrite lookup_insert. case_decide as E; [|tauto].
    subst p. split; [intros [= ?]; contradiction | intros ?; contradiction].
Qed.

Lemma preserves_sf_write (data : Buffer Sample) (rate : Z) :
  preserves loop_frame (sf_write "temp.wav" data rate).
Proof.
  intros w. unfold sf_write.
  destruct (files w !! "temp.wav") as [[| a | s]|] eqn:E;
    try destruct (parent_ok (files w) "temp.wav");
    cbn [world_of]; try apply loop_frame_refl;
    (apply loop_frame_put;
     [congruence | discriminate | now left | split; [reflexivity | now intros p [= <-]]]).
Qed.

Lemma preserves_open_w (path : string) :
  preserves (Sample := Sample) loop_frame (open_w path).
Proof.
  intros w. unfold open_w.
  destruct (files w !! path) as [[| a | s]|] eqn:E;
    try destruct (parent_ok (files w) path);
    cbn [world_of]; try apply loop_frame_refl;
    (apply loop_frame_put;
     [congruence | discriminate | now right | apply quiet_simple; [reflexivity | discriminate]]).
Qed.

Lemma preserves_file_write (f s : string) :
  preserves (Sample := Sample) loop_frame (file_write f s).
Proof.
  intros w. unfold file_write.
  destruct (files w !! f) as [[| a | old]|] eqn:E;
    cbn [world_of]; try apply loop_frame_refl.
  apply loop_frame_put;
    [congruence | discriminate | now right | apply quiet_simple; [reflexivity | discriminate]].
Qed.

Create HintDb frame.

#[local] Hint Resolve preserves_ret preserves_print preserves_time_sleep
  preserves_sd_wait preserves_datetime_now preserves_sd_rec
  preserves_model_transcribe preserves_sf_write preserves_open_w
  preserves_file_write : frame.

Ltac frame_steps :=
  repeat (apply preserves_bind; [|intros ?]); auto with frame.

Lemma preserves_record_chunk (duration : Z) :
  preserves loop_frame (record_chunk env default_filename duration).
Proof. unfold record_chunk, default_filename. frame_steps. Qed.

Lemma preserves_transcribe_to_file (MODEL : Model Sample) (wav_path : string) :
  preserves loop_frame (transcribe_to_file env MODEL wav_path).
Proof. unfold transcribe_to_file. frame_steps. Qed.

Lemma preserves_loop_body (MODEL : Model Sample) :
  preserves loop_frame (loop_body env MODEL).
Proof.
  unfold loop_body.
  apply preserves_bind; [apply preserves_record_chunk | intros _].
  apply preserves_bind; [apply preserves_transcribe_to_file | intros _].
  apply preserves_time_sleep.
Qed.

Lemma preserves_while_true (n : nat) (body : M Sample unit) :
  preserves loop_frame body -> preserves loop_frame (while_true n body).
Proof.
  intros Hb. induction n as [|n IH]; cbn [while_true].
  - apply preserves_ret.
  - apply preserves_bind; [exact Hb | intros _; exact IH].
Qed.

(** The script leaves alone, after module initialisation, what the loop
    leaves alone. *)
Lemma script_frame (n : nat) fs :
  loop_frame (world_of (startup env (boot fs))) (world_of (script env n (boot fs))).
Proof.
  unfold script, bind.
  destruct (startup env (boot fs)) as [MODEL w1|e w1]; cbn [world_of].
  - apply preserves_while_true, preserves_loop_body.
  - apply loop_frame_refl.
Qed.

Lemma quiet_no_mkdir (evs : list Event) : Forall quiet evs -> List.filter is_mkdir evs = [].
Proof.
  induction 1 as [|ev evs [Hq _] _ IH]; [reflexivity|].
  cbn [List.filter]. now rewrite Hq.
Qed.

(** What module initialisation leaves behind, case by case. *)
Lemma startup_world fs :
  world_of (startup env (boot fs)) =
  match whisper_load_model env "base", fs !! OUT_DIR with
  | inr _, None =>
      {| files := <[OUT_DIR := Dir]> fs; trace := [EvMkdir OUT_DIR]; n_rec := 0; n_now := 0 |}
  | _, _ => boot fs
  end.
Proof.
  unfold startup. destruct (whisper_load_model env "base") as [e|MODEL]; [reflexivity|].
  unfold bind, os_makedirs. cbn [files boot].
  now destruct (fs !! OUT_DIR) as [[| a | s]|].
Qed.

(** * The files of a healthy run *)

Lemma files_after_temp sig res (n : nat) fs :
  files_after env sig res (S n) fs !! "temp.wav" = Some (WavFile (chunk_of (sig n))).
Proof.
  cbn [files_after].
  rewrite lookup_insert_ne by apply out_path_ne_temp.
  apply lookup_insert_eq.
Qed.

(** The last pass that used a timestamp owns the file of that name. *)
Lemma files_after_last sig res (n k : nat) fs :
  (k < n)%nat ->
  (forall j, (k < j < n)%nat -> timestamp env j <> timestamp env k) ->
  files_after env sig res n fs !! out_path (timestamp env k) =
  Some (TextFile (text (res k))).
Proof.
  induction n as [|n IH]; intros Hk Hlast; [lia|].
  cbn [files_after].
  destruct (decide (k = n)) as [->|Hne]; [apply lookup_insert_eq|].
  rewrite lookup_insert_ne.
  - rewrite lookup_insert_ne by (symmetry; apply out_path_ne_temp).
    apply IH; [lia|]. intros j Hj. apply Hlast. lia.
  - intros E. apply out_path_inj in E. revert E. apply Hlast. lia.
Qed.

Lemma elem_of_listdir (d p : string) fs :
  p ∈ listdir d fs <-> dirname p = d /\ is_Some (fs !! p).
Proof. unfold listdir. now rewrite elem_of_filter, elem_of_dom. Qed.

Lemma elem_of_written (n : nat) (p : string) :
  p ∈ written env n <-> exists k, (k < n)%nat /\ p = out_path (timestamp env k).
Proof.
  unfold written. rewrite list_elem_of_In, in_map_iff. split.
  - intros (k & <- & Hk). apply in_seq in Hk. exists k. split; [lia | reflexivity].
  - intros (k & Hk & ->). exists k. split; [reflexivity | apply in_seq; lia].
Qed.

Lemma dirname_timestamp (k : nat) : dirname (out_path (timestamp env k)) = OUT_DIR.
Proof. apply dirname_out_path, strftime_stamp_no_slash. Qed.

(** The output directory holds what it held and what the passes wrote. *)
Lemma listdir_files_after sig res (n : nat) fs (p : string) :
  p ∈ listdir OUT_DIR (files_after env sig res n fs) <->
  p ∈ written env n \/ p ∈ listdir OUT_DIR fs.
Proof.
  induction n as [|n IH].
  - cbn [files_after]. rewrite elem_of_written. split; [now right|].
    intros [(k & Hk & _)|H]; [lia | exact H].
  - rewrite elem_of_listdir. cbn [files_after]. rewrite !lookup_insert.
    rewrite elem_of_listdir in IH. rewrite !elem_of_written in *.
    destruct (decide (out_path (timestamp env n) = p)) as [<-|Hp].
    { split; [intros _; left; exists n; split; [lia | reflexivity]|].
      intros _. split; [apply dirname_timestamp | eauto]. }
    destruct (decide ("temp.wav" = p)) as [<-|Ht].
    { split; [intros [E _]; discriminate E|].
      intros [(k & _ & E)|E%elem_of_listdir]; [|destruct E as [E _]; discriminate E].
      symmetry in E. now apply out_path_ne_temp in E. }
    rewrite IH. split.
    + intros [(k & Hk & ->)|Hold]; [left; exists k; split; [lia | reflexivity] | now right].
    + intros [(k & Hk & ->)|Hold]; [|now right].
      left. exists k. split; [|reflexivity].
      destruct (decide (k = n)) as [->|]; [congruence | lia].
Qed.

Lemma written_NoDup (n : nat) :
  (forall i j, (i < n)%nat -> (j < n)%nat -> i <> j ->
               timestamp env i <> timestamp env j) ->
  NoDup (written env n).
Proof.
  intros Hd. unfold written. apply NoDup_fmap_2_strong; [|apply NoDup_seq].
  intros i j Hi%list_elem_of_In%in_seq Hj%list_elem_of_In%in_seq E.
  apply out_path_inj in E. destruct (decide (i = j)) as [|Hne]; [assumption|].
  exfalso. revert E. apply Hd; lia.
Qed.

Lemma written_length (n : nat) : length (written env n) = n.
Proof. unfold written. now rewrite length_map, length_seq. Qed.

(** ** The console of a healthy run *)

Lemma console_after_S (n : nat) :
  console_after env (S n) =
  console_after env n ++ [ EvPrint "Recording 60s...";
                           EvPrint ("Saved transcript to " +:+ out_path (timestamp env n)) ].
Proof.
  unfold console_after. rewrite seq_S, flat_map_app. cbn [flat_map Nat.add].
  now rewrite app_nil_r.
Qed.

Lemma trace_after_console res (n : nat) :
  List.filter is_print (trace_after env res n) = console_after env n.
Proof.
  induction n as [|n IH]; [reflexivity|].
  rewrite trace_after_S, console_after_S, List.filter_app, IH. reflexivity.
Qed.

Lemma startup_events_console fs : List.filter is_print (startup_events fs) = [].
Proof. unfold startup_events. now destruct (fs !! OUT_DIR). Qed.

Lemma listdir_started fs : listdir OUT_DIR (<[OUT_DIR := Dir]> fs) = listdir OUT_DIR fs.
Proof.
  apply set_eq. intros p. rewrite !elem_of_listdir, lookup_insert.
  case_decide as E; [|reflexivity]. subst p.
  split; intros [E _]; discriminate E.
Qed.

(** * Properties of the script *)

(** C1. In a healthy run whose output directory starts empty and whose
    passes all read distinct timestamps, the script is still running after
    any number [n] of passes, the output directory then holds exactly [n]
    files, namely the ones named after the [n] timestamps, and the file of
    pass [k] holds exactly the text [res k] the model returned for the chunk
    of pass [k]. *)
Theorem transcripts_after_passes (MODEL : Model Sample) (sig : nat -> nat -> Sample)
    (res : nat -> TranscribeResult) fs (n : nat) :
  HealthyRun env MODEL sig res fs n ->
  listdir OUT_DIR fs = ∅ ->
  (forall i j, (i < n)%nat -> (j < n)%nat -> i <> j ->
               timestamp env i <> timestamp env j) ->
  exists w,
    script env n (boot fs) = Ok tt w /\
    size (listdir OUT_DIR (files w)) = n /\
    (forall p, p ∈ listdir OUT_DIR (files w) <->
               exists k, (k < n)%nat /\ p = out_path (timestamp env k)) /\
    (forall k, (k < n)%nat ->
               files w !! out_path (timestamp env k) = Some (TextFile (text (res k)))).
Proof.
  intros Hrun Hempty Hdistinct. exists (world_after env sig res n fs).
  assert (Hdir : forall p, p ∈ listdir OUT_DIR (files (world_after env sig res n fs))
                           <-> p ∈ written env n).
  { intros p. cbn [world_after files].
    rewrite listdir_files_after, listdir_started, Hempty.
    split; [|now left]. intros [Hin|Hin]; [exact Hin|].
    now apply not_elem_of_empty in Hin. }
  split; [now apply (script_healthy MODEL)|]. split; [|split].
  - replace (listdir OUT_DIR (files (world_after env sig res n fs)))
      with (list_to_set (C := gset string) (written env n)).
    + rewrite size_list_to_set by now apply written_NoDup.
      apply written_length.
    + apply set_eq. intros p. now rewrite Hdir, elem_of_list_to_set.
  - intros p. now rewrite Hdir, elem_of_written.
  - intros k Hk. cbn [world_after files]. apply files_after_last; [exact Hk|].
    intros j Hj. apply Hdistinct; lia.
Qed.

Lemma capture_length (sig : nat -> Sample) (n : Z) :
  0 <= n -> Z.of_nat (length (capture sig n)) = n.
Proof. intros Hn. unfold capture. rewrite length_map, length_seq. lia. Qed.

(** C2. For a duration of [D] seconds, one call of [record_chunk] asks the
    device once, for [D * 16000] frames of one channel at 16000 Hz, and
    leaves at the given path a sound file of exactly [D * 16000] samples,
    one channel, 16000 Hz. *)
Theorem record_chunk_buffer (filename : string) (D : Z) (sig : nat -> Sample) w :
  0 <= D ->
  mic env (n_rec w) = inr sig ->
  files w !! filename <> Some Dir ->
  parent_ok (files w) filename = true ->
  exists w' a,
    record_chunk env filename D w = Ok tt w' /\
    trace w' = trace w ++ [ EvPrint ("Recording " +:+ str D +:+ "s...");
                            EvRec (D * 16000) 16000 1; EvWait; EvSfWrite filename ] /\
    files w' !! filename = Some (WavFile a) /\
    Z.of_nat (length (wav_data a)) = D * 16000 /\
    wav_channels a = 1 /\
    wav_rate a = 16000.
Proof.
  intros HD Hmic Hnd Hp. eexists. eexists.
  split; [now apply (record_chunk_ok filename D sig)|].
  cbn [files trace]. split; [reflexivity|].
  split; [apply lookup_insert_eq|].
  cbn [wav_data wav_channels wav_rate].
  split; [|split; reflexivity].
  rewrite capture_length by lia. lia.
Qed.

(** C3. The one file [transcribe_to_file] writes lies in
    [./output-transcripts] and is named [voice_<timestamp>.txt], the
    timestamp being [YYYY-MM-DD_HHMMSS] (17 characters) of the clock reading
    the call makes between the transcription and the opening of the file. *)
Theorem transcript_path (MODEL : Model Sample) (wav_path : string)
    (a : Wav Sample) (r : TranscribeResult) w :
  let now := clock env (n_now w) in
  let p := "./output-transcripts/voice_" +:+ stamp_text now +:+ ".txt" in
  valid_datetime now ->
  files w !! wav_path = Some (WavFile a) ->
  MODEL a = inr r ->
  files w !! OUT_DIR = Some Dir ->
  files w !! p <> Some Dir ->
  exists w',
    transcribe_to_file env MODEL wav_path w = Ok tt w' /\
    files w' = <[p := TextFile (text r)]> (files w) /\
    trace w' = trace w ++ [ EvTranscribe wav_path; EvNow; EvOpen p;
                            EvWrite p (text r);
                            EvPrint ("Saved transcript to " +:+ p) ] /\
    dirname p = "./output-transcripts" /\
    String.length (stamp_text now) = 17%nat.
Proof.
  intros now p Hvalid Hwav Hmodel Hdir Hnd.
  assert (Hp : p = out_path (timestamp env (n_now w))).
  { unfold p, out_path, timestamp. fold now.
    rewrite (strftime_stamp_text now Hvalid). reflexivity. }
  eexists. split.
  - apply (transcribe_to_file_ok MODEL wav_path a r w Hwav Hmodel Hdir).
    now rewrite <- Hp.
  - cbn [files trace]. rewrite <- Hp.
    split; [reflexivity|]. split; [reflexivity|]. split; [|reflexivity].
    rewrite Hp. apply dirname_timestamp.
Qed.

(** C4. Whatever text the model returns, the empty string included, and
    whatever the target path held before, [transcribe_to_file] creates the
    file and its content is that text, unchanged. *)
Theorem transcript_verbatim (MODEL : Model Sample) (wav_path : string)
    (a : Wav Sample) (r : TranscribeResult) w :
  let p := out_path (timestamp env (n_now w)) in
  files w !! wav_path = Some (WavFile a) ->
  MODEL a = inr r ->
  files w !! OUT_DIR = Some Dir ->
  files w !! p <> Some Dir ->
  exists w',
    transcribe_to_file env MODEL wav_path w = Ok tt w' /\
    files w' !! p = Some (TextFile (text r)) /\
    In (EvWrite p (text r)) (trace w').
Proof.
  intros p Hwav Hmodel Hdir Hnd. eexists. split.
  - now apply (transcribe_to_file_ok MODEL wav_path a r w).
  - cbn [files trace]. split; [apply lookup_insert_eq|].
    apply in_or_app. right. cbn. tauto.
Qed.

(** Every pass begins by announcing the recording, whatever follows. *)
Lemma loop_body_starts (MODEL : Model Sample) w :
  exists evs,
    trace (world_of (loop_body env MODEL w)) = trace w ++ EvPrint "Recording 60s..." :: evs.
Proof.
  unfold loop_body, record_chunk. rewrite !bind_assoc.
  unfold bind at 1. unfold print at 1. unfold emit at 1.
  match goal with
  | |- context [world_of (bind ?m ?k ?w1)] =>
      assert (Hf : preserves loop_frame (bind m k))
  end.
  { unfold default_filename. frame_steps. }
  destruct (Hf (log (EvPrint ("Recording " +:+ str default_duration +:+ "s...")) w))
    as [(evs & Ht & _) _ _].
  exists evs. rewrite Ht. cbn [trace log]. now rewrite <- app_assoc.
Qed.

(** C5. In a healthy run the script is still running after any number [n]
    of passes; its calls so far are those of the [n] passes one after the
    other in pass order, each pass recording, then transcribing, then
    writing, then sleeping 2 seconds; and the next thing the script does is
    to begin pass [n]. *)
Theorem loop_runs_on (MODEL : Model Sample) (sig : nat -> nat -> Sample)
    (res : nat -> TranscribeResult) fs (n : nat) :
  HealthyRun env MODEL sig res fs n ->
  exists w,
    script env n (boot fs) = Ok tt w /\
    trace w =
      startup_events fs ++
      flat_map (fun k =>
                  let p := out_path (timestamp env k) in
                  [ EvPrint "Recording 60s..."; EvRec 960000 16000 1; EvWait;
                    EvSfWrite "temp.wav";
                    EvTranscribe "temp.wav";
                    EvNow; EvOpen p; EvWrite p (text (res k));
                    EvPrint ("Saved transcript to " +:+ p);
                    EvSleep 2 ])
               (seq 0 n) /\
    exists evs,
      trace (world_of (script env (S n) (boot fs))) =
      trace w ++ EvPrint "Recording 60s..." :: evs.
Proof.
  intros Hrun. exists (world_after env sig res n fs).
  pose proof (script_healthy MODEL sig res fs n Hrun) as Hn.
  split; [exact Hn|]. split; [reflexivity|].
  destruct Hrun as [Hload Hdir Hh].
  unfold script in *.
  rewrite (bind_ok _ _ _ _ _ (startup_ok MODEL fs Hload Hdir)) in Hn.
  rewrite (bind_ok _ _ _ _ _ (startup_ok MODEL fs Hload Hdir)).
  rewrite while_true_snoc, (bind_ok _ _ _ _ _ Hn).
  apply loop_body_starts.
Qed.

(** C6. When pass [j] reads the clock in the same second as an earlier
    pass [i], both passes name the same file: after pass [i] it held the
    text of pass [i]; after pass [j] the run is still free of errors, the
    file holds the text of pass [j] alone, and the console shows the two
    usual lines per pass and nothing else. *)
Theorem same_second_overwrites (MODEL : Model Sample) (sig : nat -> nat -> Sample)
    (res : nat -> TranscribeResult) fs (i j : nat) :
  HealthyRun env MODEL sig res fs (S j) ->
  (i < j)%nat ->
  same_second (clock env i) (clock env j) ->
  let p := out_path (timestamp env i) in
  p = out_path (timestamp env j) /\
  (exists wi, script env (S i) (boot fs) = Ok tt wi /\
              files wi !! p = Some (TextFile (text (res i)))) /\
  (exists wj, script env (S j) (boot fs) = Ok tt wj /\
              files wj !! p = Some (TextFile (text (res j))) /\
              List.filter is_print (trace wj) =
                flat_map (fun k => [ EvPrint "Recording 60s...";
                                     EvPrint ("Saved transcript to "
                                              +:+ out_path (timestamp env k)) ])
                         (seq 0 (S j))).
Proof.
  intros Hrun Hij Hsame p.
  assert (Hts : timestamp env i = timestamp env j) by now apply same_second_stamp.
  split; [unfold p; now rewrite Hts|]. split.
  - exists (world_after env sig res (S i) fs). split.
    + apply (script_healthy MODEL). apply (HealthyRun_le MODEL sig res fs (S i) (S j)); [lia | exact Hrun].
    + cbn [world_after files]. apply files_after_last; [lia|]. intros k Hk. lia.
  - exists (world_after env sig res (S j) fs).
    split; [now apply (script_healthy MODEL)|]. cbn [world_after files trace]. split.
    + unfold p. rewrite Hts. apply files_after_last; [lia|]. intros k Hk. lia.
    + rewrite List.filter_app, startup_events_console, trace_after_console. reflexivity.
Qed.

Lemma while_true_add (n m : nat) (body : M Sample unit) w :
  while_true (n + m) body w = bind (while_true n body) (fun _ => while_true m body) w.
Proof.
  revert w. induction n as [|n IH]; intros w; [reflexivity|].
  change (while_true (S n + m) body w)
    with (bind body (fun _ => while_true (n + m) body) w).
  change (while_true (S n) body) with (bind body (fun _ => while_true n body)).
  rewrite bind_assoc. apply bind_ext. intros _ w'. apply IH.
Qed.

(** A pass that raises ends the loop, however long it was meant to run. *)
Lemma while_true_failure (MODEL : Model Sample) (n m : nat) w w1 (e : Exn) wf :
  while_true n (loop_body env MODEL) w = Ok tt w1 ->
  loop_body env MODEL w1 = Raise e wf ->
  (n < m)%nat ->
  while_true m (loop_body env MODEL) w = Raise e wf.
Proof.
  intros Hn Hfail Hlt.
  replace m with (n + S (m - n - 1))%nat by lia.
  rewrite while_true_add, (bind_ok _ _ _ _ _ Hn).
  cbn [while_true]. now apply bind_raise.
Qed.

Lemma startup_world_dirs fs (p : string) :
  p <> OUT_DIR ->
  files (world_of (startup env (boot fs))) !! p = fs !! p.
Proof.
  intros Hp. rewrite startup_world.
  destruct (whisper_load_model env "base"), (fs !! OUT_DIR); cbn [files boot];
    try reflexivity.
  now rewrite lookup_insert_ne by congruence.
Qed.

Lemma startup_world_mkdirs (MODEL : Model Sample) fs :
  whisper_load_model env "base" = inr MODEL ->
  trace (world_of (startup env (boot fs))) = startup_events fs.
Proof.
  intros Hload. rewrite startup_world, Hload. unfold startup_events.
  now destruct (fs !! OUT_DIR).
Qed.

Lemma startup_events_mkdirs fs : List.filter is_mkdir (startup_events fs) = startup_events fs.
Proof. unfold startup_events. now destruct (fs !! OUT_DIR). Qed.

(** C8. With the model loaded, module initialisation creates
    [./output-transcripts] when nothing has that name and leaves the world
    as it is, without failing, when the directory exists; and over the whole
    script, for any number of passes and however it ends, the directory is
    created once if the name was free and never otherwise, no other
    directory appears or disappears, and a directory created stays, its
    creation being the first call of all. *)
Theorem out_dir_created_once (MODEL : Model Sample) fs :
  whisper_load_model env "base" = inr MODEL ->
  (fs !! OUT_DIR = None ->
   startup env (boot fs) =
   Ok MODEL {| files := <[OUT_DIR := Dir]> fs; trace := [EvMkdir OUT_DIR];
               n_rec := 0; n_now := 0 |}) /\
  (fs !! OUT_DIR = Some Dir -> startup env (boot fs) = Ok MODEL (boot fs)) /\
  forall n,
    let w := world_of (script env n (boot fs)) in
    List.filter is_mkdir (trace w) =
      match fs !! OUT_DIR with
      | None => [EvMkdir OUT_DIR]
      | Some _ => []
      end /\
    (forall p, p <> OUT_DIR -> files w !! p = Some Dir <-> fs !! p = Some Dir) /\
    (fs !! OUT_DIR = None ->
     files w !! OUT_DIR = Some Dir /\ exists evs, trace w = EvMkdir OUT_DIR :: evs).
Proof.
  intros Hload. split; [now apply startup_absent|]. split; [now apply startup_present|].
  intros n w. destruct (script_frame n fs) as [(evs & Ht & Hq) _ Hd]. fold w in Ht, Hd.
  rewrite (startup_world_mkdirs MODEL fs Hload) in Ht.
  split; [|split].
  - rewrite Ht, List.filter_app, (quiet_no_mkdir evs Hq), app_nil_r.
    apply startup_events_mkdirs.
  - intros p Hp. now rewrite Hd, startup_world_dirs.
  - intros Habs. split.
    + apply Hd. rewrite startup_world, Hload, Habs. apply lookup_insert_eq.
    + exists evs. rewrite Ht. unfold startup_events. now rewrite Habs.
Qed.

Lemma elem_of_wav_paths fs (p : string) : p ∈ wav_paths fs <-> is_wav (fs !! p) = true.
Proof.
  unfold wav_paths. rewrite elem_of_filter, elem_of_dom. split; [tauto|].
  intros H. split; [exact H|]. now destruct (fs !! p).
Qed.

Lemma startup_world_wav fs (p : string) :
  is_wav (files (world_of (startup env (boot fs))) !! p) = is_wav (fs !! p).
Proof.
  destruct (decide (p = OUT_DIR)) as [->|Hp]; [|now rewrite startup_world_dirs].
  rewrite startup_world.
  destruct (whisper_load_model env "base"), (fs !! OUT_DIR) eqn:E; cbn [files boot];
    rewrite ?E; try reflexivity.
  now rewrite lookup_insert_eq.
Qed.

(** C9. After [S n] healthy passes [temp.wav] holds the chunk of pass [n],
    the latest, whatever it held before.  And for any number of passes,
    however the script ends: sound is written to [temp.wav] only, a path
    that holds sound is [temp.wav] or held sound before, so a file system
    that had no sound file has at most one. *)
Theorem temp_file_reused (MODEL : Model Sample) (sig : nat -> nat -> Sample)
    (res : nat -> TranscribeResult) fs (n : nat) :
  HealthyRun env MODEL sig res fs (S n) ->
  (exists w, script env (S n) (boot fs) = Ok tt w /\
             files w !! "temp.wav" = Some (WavFile (chunk_of (sig n)))) /\
  forall m,
    let w := world_of (script env m (boot fs)) in
    (forall p, In (EvSfWrite p) (trace w) -> p = "temp.wav") /\
    (forall p, p ∈ wav_paths (files w) -> p = "temp.wav" \/ p ∈ wav_paths fs) /\
    (wav_paths fs = ∅ -> (size (wav_paths (files w)) <= 1)%nat).
Proof.
  intros Hrun. split.
  { exists (world_after env sig res (S n) fs).
    split; [now apply (script_healthy MODEL) | apply files_after_temp]. }
  intros m w. destruct (script_frame m fs) as [(evs & Ht & Hq) Hw _]. fold w in Ht, Hw.
  assert (Hpaths : forall p, p ∈ wav_paths (files w) -> p = "temp.wav" \/ p ∈ wav_paths fs).
  { intros p Hp. destruct (decide (p = "temp.wav")) as [|Hne]; [now left | right].
    rewrite elem_of_wav_paths in *. rewrite <- startup_world_wav. now apply Hw. }
  split; [|split; [exact Hpaths|]].
  - intros p Hin. rewrite Ht in Hin. apply in_app_or in Hin as [Hin|Hin].
    + exfalso. revert Hin. rewrite startup_world.
      destruct (whisper_load_model env "base"), (fs !! OUT_DIR); cbn; intuition discriminate.
    + rewrite Forall_forall in Hq. now apply (Hq _ (proj2 (list_elem_of_In _ _) Hin)).
  - intros Hnone.
    rewrite <- (size_singleton (C := gset string) "temp.wav").
    apply subseteq_size. intros p Hp. apply elem_of_singleton.
    destruct (Hpaths p Hp) as [E|Hold]; [exact E|].
    rewrite Hnone in Hold. now apply not_elem_of_empty in Hold.
Qed.

(** C10. The name [record_chunk] writes to by default is the name the loop
    hands to [transcribe_to_file]; so in every pass that succeeds, whatever
    [temp.wav] held before, the file left there is the chunk of this pass
    and the transcript written is the model's text for that chunk. *)
Theorem transcript_of_same_pass (MODEL : Model Sample) (sig : nat -> Sample)
    (r : TranscribeResult) w :
  let p := out_path (timestamp env (n_now w)) in
  mic env (n_rec w) = inr sig ->
  MODEL (chunk_of sig) = inr r ->
  files w !! "temp.wav" <> Some Dir ->
  files w !! OUT_DIR = Some Dir ->
  files w !! p <> Some Dir ->
  default_filename = "temp.wav" /\
  exists w',
    loop_body env MODEL w = Ok tt w' /\
    files w' !! "temp.wav" = Some (WavFile (chunk_of sig)) /\
    files w' !! p = Some (TextFile (text r)) /\
    trace w' = trace w ++ [ EvPrint "Recording 60s..."; EvRec 960000 16000 1; EvWait;
                            EvSfWrite default_filename;
                            EvTranscribe "temp.wav";
                            EvNow; EvOpen p; EvWrite p (text r);
                            EvPrint ("Saved transcript to " +:+ p);
                            EvSleep 2 ].
Proof.
  intros p Hmic Hmodel Htmp Hdir Hnd. split; [reflexivity|].
  eexists. split; [now apply (loop_body_ok MODEL sig r w)|].
  cbn [files trace]. fold p. split; [|split; [apply lookup_insert_eq | reflexivity]].
  rewrite lookup_insert_ne by apply out_path_ne_temp. apply lookup_insert_eq.
Qed.

(** * Where the failures come from *)

Lemma record_chunk_device_failure (filename : string) (duration : Z) (e : Exn) w :
  0 <= duration ->
  mic env (n_rec w) = inl e ->
  record_chunk env filename duration w =
  Raise e (log (EvPrint ("Recording " +:+ str duration +:+ "s...")) w).
Proof.
  intros Hd Hmic. unfold record_chunk, bind, print, emit, sd_rec, int.
  cbn [n_rec log]. rewrite bool_decide_eq_false_2 by lia. now rewrite Hmic.
Qed.

Lemma transcribe_to_file_model_failure (MODEL : Model Sample) (wav_path : string)
    (a : Wav Sample) (e : Exn) w :
  files w !! wav_path = Some (WavFile a) ->
  MODEL a = inl e ->
  transcribe_to_file env MODEL wav_path w = Raise e w.
Proof.
  intros Hwav Hmodel. unfold transcribe_to_file, bind, model_transcribe.
  now rewrite Hwav, Hmodel.
Qed.

Lemma transcribe_to_file_no_directory (MODEL : Model Sample) (wav_path : string)
    (a : Wav Sample) (r : TranscribeResult) w :
  files w !! wav_path = Some (WavFile a) ->
  MODEL a = inr r ->
  files w !! OUT_DIR = None ->
  files w !! out_path (timestamp env (n_now w)) = None ->
  transcribe_to_file env MODEL wav_path w =
  Raise FileNotFoundError (log EvNow (tick_now (log (EvTranscribe wav_path) w))).
Proof.
  intros Hwav Hmodel Hdir Hnone. unfold transcribe_to_file.
  unfold bind at 1. unfold model_transcribe. rewrite Hwav, Hmodel.
  unfold bind at 1. unfold datetime_now.
  fold (timestamp env (n_now (log (EvTranscribe wav_path) w))).
  fold (out_path (timestamp env (n_now (log (EvTranscribe wav_path) w)))).
  cbn [n_now log]. unfold bind, open_w. cbn [files log tick_now].
  rewrite Hnone. unfold parent_ok. rewrite dirname_timestamp.
  rewrite bool_decide_eq_false_2 by discriminate. now rewrite Hdir.
Qed.

(** A negative duration never reaches the device: allocating the array
    already fails. *)
Lemma record_chunk_negative (filename : string) (duration : Z) w :
  duration < 0 ->
  record_chunk env filename duration w =
  Raise ValueError (log (EvPrint ("Recording " +:+ str duration +:+ "s...")) w).
Proof.
  intros Hd. unfold record_chunk, bind, print, emit, sd_rec, int.
  now rewrite bool_decide_eq_true_2 by lia.
Qed.

End Proofs.

(** * The properties on the sample environments *)

Lemma capture_head {Sample} (sig : nat -> Sample) (n : Z) :
  0 < n -> exists tl, capture sig n = sig 0%nat :: tl.
Proof.
  intros Hn. unfold capture. destruct (Z.to_nat n) as [|m] eqn:E; [lia|].
  cbn [seq map]. eauto.
Qed.

Lemma demo_model_chunk (k : nat) : demo_model (chunk_of (demo_signal k)) = inr (demo_res k).
Proof.
  unfold demo_model, chunk_of. cbn [wav_data].
  destruct (capture_head (demo_signal k) (int (default_duration * 16000) * 1)) as [tl ->];
    [unfold int, default_duration; lia | reflexivity].
Qed.

Lemma listdir_empty (d : string) : listdir d empty_fs = ∅.
Proof.
  apply set_eq. intros p. rewrite elem_of_listdir. unfold empty_fs. rewrite lookup_empty.
  split; [intros [_ [x Hx]]; discriminate Hx | intros H; now apply not_elem_of_empty in H].
Qed.

(** From an empty file system, an environment whose microphone works for
    [n] passes and whose model is [demo_model] runs healthily. *)
Lemma healthy_from_nothing (env : Env Z) (n : nat) :
  whisper_load_model env "base" = inr demo_model ->
  (forall k, (k < n)%nat -> mic env k = inr (demo_signal k)) ->
  HealthyRun env demo_model demo_signal demo_res empty_fs n.
Proof.
  intros Hload Hmic. split; [exact Hload | now left |].
  split; [exact Hmic | intros k _; apply demo_model_chunk | |].
  - unfold empty_fs. now rewrite lookup_empty.
  - intros k _. unfold empty_fs. now rewrite lookup_empty.
Qed.

Lemma demo_healthy (n : nat) : HealthyRun demo_env demo_model demo_signal demo_res empty_fs n.
Proof. apply healthy_from_nothing; [reflexivity | intros k _; reflexivity]. Qed.

Lemma stuck_healthy (n : nat) : HealthyRun stuck_env demo_model demo_signal demo_res empty_fs n.
Proof. apply healthy_from_nothing; [reflexivity | intros k _; reflexivity]. Qed.

Lemma demo_timestamps_distinct (i j : nat) :
  (i < 2)%nat -> (j < 2)%nat -> i <> j -> timestamp demo_env i <> timestamp demo_env j.
Proof.
  intros Hi Hj Hne.
  destruct i as [|[|i]], j as [|[|j]]; try lia; vm_compute; discriminate.
Qed.

Lemma transcripts_after_passes_witness :
  exists w,
    script demo_env 2 (boot empty_fs) = Ok tt w /\
    size (listdir OUT_DIR (files w)) = 2%nat /\
    (forall p, p ∈ listdir OUT_DIR (files w) <->
               exists k, (k < 2)%nat /\ p = out_path (timestamp demo_env k)) /\
    (forall k, (k < 2)%nat ->
               files w !! out_path (timestamp demo_env k) =
               Some (TextFile (text (demo_res k)))).
Proof.
  apply (transcripts_after_passes demo_env demo_model demo_signal demo_res empty_fs 2).
  - apply demo_healthy.
  - apply listdir_empty.
  - apply demo_timestamps_distinct.
Defined.

Lemma record_chunk_buffer_witness :
  exists w' a,
    record_chunk demo_env "temp.wav" 60 (boot empty_fs) = Ok tt w' /\
    trace w' = trace (boot empty_fs) ++ [ EvPrint ("Recording " +:+ str 60 +:+ "s...");
                                   EvRec (60 * 16000) 16000 1; EvWait;
                                   EvSfWrite "temp.wav" ] /\
    files w' !! "temp.wav" = Some (WavFile a) /\
    Z.of_nat (length (wav_data a)) = 60 * 16000 /\
    wav_channels a = 1 /\
    wav_rate a = 16000.
Proof.
  apply (record_chunk_buffer demo_env "temp.wav" 60 (demo_signal 0) (boot empty_fs)).
  - lia.
  - reflexivity.
  - cbn [files boot]. unfold empty_fs. rewrite lookup_empty. discriminate.
  - reflexivity.
Defined.

Lemma stale_world_temp : files stale_world !! "temp.wav" = Some (WavFile stale_wav).
Proof. apply lookup_insert_eq. Qed.

Lemma stale_world_out_dir : files stale_world !! OUT_DIR = Some Dir.
Proof.
  cbn [files stale_world]. rewrite lookup_insert_ne by discriminate.
  apply lookup_insert_eq.
Qed.

Lemma stale_world_target (ts : string) : files stale_world !! out_path ts <> Some Dir.
Proof.
  cbn [files stale_world].
  rewrite lookup_insert_ne by (symmetry; apply out_path_ne_temp).
  rewrite lookup_insert_ne by (symmetry; apply out_path_ne_OUT_DIR).
  now rewrite lookup_empty.
Qed.

Lemma demo_clock_valid : valid_datetime (demo_clock 0).
Proof. unfold valid_datetime, demo_clock. cbn. lia. Qed.

Lemma transcript_path_witness :
  let p := "./output-transcripts/voice_2025-11-02_013000.txt" in
  exists w',
    transcribe_to_file demo_env demo_model "temp.wav" stale_world = Ok tt w' /\
    files w' = <[p := TextFile "7"]> (files stale_world) /\
    trace w' = trace stale_world ++ [ EvTranscribe "temp.wav"; EvNow; EvOpen p;
                                      EvWrite p "7";
                                      EvPrint ("Saved transcript to " +:+ p) ] /\
    dirname p = "./output-transcripts" /\
    String.length (stamp_text (demo_clock 0)) = 17%nat.
Proof.
  apply (transcript_path demo_env demo_model "temp.wav" stale_wav
           {| text := "7"; language := "en" |} stale_world).
  - exact demo_clock_valid.
  - exact stale_world_temp.
  - reflexivity.
  - exact stale_world_out_dir.
  - exact (stale_world_target "2025-11-02_013000").
Defined.

Lemma transcript_verbatim_witness :
  let p := out_path (timestamp demo_env 0) in
  exists w',
    transcribe_to_file demo_env mute_model "temp.wav" stale_world = Ok tt w' /\
    files w' !! p = Some (TextFile EmptyString) /\
    In (EvWrite p EmptyString) (trace w').
Proof.
  apply (transcript_verbatim demo_env mute_model "temp.wav" stale_wav
           {| text := EmptyString; language := "en" |} stale_world).
  - exact stale_world_temp.
  - reflexivity.
  - exact stale_world_out_dir.
  - apply stale_world_target.
Defined.

Lemma loop_runs_on_witness :
  exists w,
    script demo_env 2 (boot empty_fs) = Ok tt w /\
    trace w =
      startup_events empty_fs ++
      flat_map (fun k =>
                  let p := out_path (timestamp demo_env k) in
                  [ EvPrint "Recording 60s..."; EvRec 960000 16000 1; EvWait;
                    EvSfWrite "temp.wav";
                    EvTranscribe "temp.wav";
                    EvNow; EvOpen p; EvWrite p (text (demo_res k));
                    EvPrint ("Saved transcript to " +:+ p);
                    EvSleep 2 ])
               (seq 0 2) /\
    exists evs,
      trace (world_of (script demo_env 3 (boot empty_fs))) =
      trace w ++ EvPrint "Recording 60s..." :: evs.
Proof.
  apply (loop_runs_on demo_env demo_model demo_signal demo_res empty_fs 2).
  apply demo_healthy.
Defined.

Lemma same_second_overwrites_witness :
  let p := out_path (timestamp stuck_env 0) in
  p = out_path (timestamp stuck_env 1) /\
  (exists wi, script stuck_env 1 (boot empty_fs) = Ok tt wi /\
              files wi !! p = Some (TextFile (text (demo_res 0)))) /\
  (exists wj, script stuck_env 2 (boot empty_fs) = Ok tt wj /\
              files wj !! p = Some (TextFile (text (demo_res 1))) /\
              List.filter is_print (trace wj) =
                flat_map (fun k => [ EvPrint "Recording 60s...";
                                     EvPrint ("Saved transcript to "
                                              +:+ out_path (timestamp stuck_env k)) ])
                         (seq 0 2)).
Proof.
  apply (same_second_overwrites stuck_env demo_model demo_signal demo_res empty_fs 0 1).
  - apply stuck_healthy.
  - lia.
  - unfold same_second. cbn. tauto.
Defined.

Lemma out_dir_created_once_witness :
  (empty_fs !! OUT_DIR = None ->
   startup demo_env (boot empty_fs) =
   Ok demo_model {| files := <[OUT_DIR := Dir]> empty_fs; trace := [EvMkdir OUT_DIR];
                    n_rec := 0; n_now := 0 |}) /\
  (empty_fs !! OUT_DIR = Some Dir ->
   startup demo_env (boot empty_fs) = Ok demo_model (boot empty_fs)) /\
  forall n,
    let w := world_of (script demo_env n (boot empty_fs)) in
    List.filter is_mkdir (trace w) =
      match empty_fs !! OUT_DIR with
      | None => [EvMkdir OUT_DIR]
      | Some _ => []
      end /\
    (forall p, p <> OUT_DIR -> files w !! p = Some Dir <-> empty_fs !! p = Some Dir) /\
    (empty_fs !! OUT_DIR = None ->
     files w !! OUT_DIR = Some Dir /\ exists evs, trace w = EvMkdir OUT_DIR :: evs).
Proof.
  apply (out_dir_created_once demo_env demo_model empty_fs).
  reflexivity.
Defined.

Lemma temp_file_reused_witness :
  (exists w, script demo_env 2 (boot empty_fs) = Ok tt w /\
             files w !! "temp.wav" = Some (WavFile (chunk_of (demo_signal 1)))) /\
  forall m,
    let w := world_of (script demo_env m (boot empty_fs)) in
    (forall p, In (EvSfWrite p) (trace w) -> p = "temp.wav") /\
    (forall p, p ∈ wav_paths (files w) -> p = "temp.wav" \/ p ∈ wav_paths empty_fs) /\
    (wav_paths empty_fs = ∅ -> (size (wav_paths (files w)) <= 1)%nat).
Proof.
  apply (temp_file_reused demo_env demo_model demo_signal demo_res empty_fs 1).
  apply demo_healthy.
Defined.

Lemma transcript_of_same_pass_witness :
  let p := out_path (timestamp demo_env 0) in
  default_filename = "temp.wav" /\
  exists w',
    loop_body demo_env demo_model stale_world = Ok tt w' /\
    files w' !! "temp.wav" = Some (WavFile (chunk_of (demo_signal 0))) /\
    files w' !! p = Some (TextFile "0") /\
    trace w' = trace stale_world ++
               [ EvPrint "Recording 60s..."; EvRec 960000 16000 1; EvWait;
                 EvSfWrite default_filename;
                 EvTranscribe "temp.wav";
                 EvNow; EvOpen p; EvWrite p "0";
                 EvPrint ("Saved transcript to " +:+ p);
                 EvSleep 2 ].
Proof.
  apply (transcript_of_same_pass demo_env demo_model (demo_signal 0) (demo_res 0) stale_world).
  - reflexivity.
  - apply demo_model_chunk.
  - rewrite stale_world_temp. discriminate.
  - exact stale_world_out_dir.
  - apply stale_world_target.
Defined.

(** A pass that fails half-way leaves its half behind: with a model that
    cannot decode, the script stops in the first pass, the chunk just
    recorded stays in [temp.wav] and no transcript exists. *)
Example broken_model_leaves_chunk :
  exists wf,
    script broken_env 5 (boot empty_fs) = Raise RuntimeError wf /\
    files wf !! "temp.wav" = Some (WavFile (chunk_of (demo_signal 0))) /\
    (forall ts, files wf !! out_path ts = None) /\
    trace wf = [ EvMkdir OUT_DIR; EvPrint "Recording 60s..."; EvRec 960000 16000 1;
                 EvWait; EvSfWrite "temp.wav" ].
Proof.
  pose (w := {| files := <[OUT_DIR := Dir]> empty_fs; trace := [EvMkdir OUT_DIR];
                n_rec := 0; n_now := 0 |}).
  assert (Hstart : startup broken_env (boot empty_fs) = Ok broken_model w)
    by (apply startup_absent; [reflexivity | apply lookup_empty]).
  assert (Htmp : files w !! default_filename <> Some Dir).
  { cbn [files w]. rewrite lookup_insert_ne by discriminate.
    unfold empty_fs. rewrite lookup_empty. discriminate. }
  pose proof (record_chunk_ok broken_env default_filename default_duration
                (demo_signal 0) w ltac:(unfold default_duration; lia)
                eq_refl Htmp eq_refl) as Hrec.
  eexists. split.
  - unfold script. rewrite (bind_ok _ _ _ _ _ Hstart).
    eapply (while_true_failure broken_env broken_model 0 5); [reflexivity | | lia].
    unfold loop_body. rewrite (bind_ok _ _ _ _ _ Hrec).
    apply bind_raise.
    apply (transcribe_to_file_model_failure broken_env broken_model "temp.wav"
             (chunk_of (demo_signal 0)));
      [apply lookup_insert_eq | reflexivity].
  - cbn [files trace w]. split; [apply lookup_insert_eq|]. split; [|reflexivity].
    intros ts. rewrite lookup_insert_ne by (symmetry; apply out_path_ne_temp).
    rewrite lookup_insert_ne by (symmetry; apply out_path_ne_OUT_DIR).
    apply lookup_empty.
Qed.

(** * Runs by computation *)

Example strftime_demo :
  strftime "%Y-%m-%d_%H%M%S"
    {| year := 2026; month := 1; day := 5; hour := 7; minute := 3; second := 9;
       microsecond := 123456 |}
  = "2026-01-05_070309".
Proof. vm_compute. reflexivity. Qed.

Example dirname_demo :
  dirname "./output-transcripts/voice_2026-01-05_070309.txt" = "./output-transcripts" /\
  dirname "temp.wav" = EmptyString /\
  dirname "/temp.wav" = "/" /\
  dirname "a//b" = "a".
Proof. vm_compute. repeat split. Qed.

(** Two passes of the script from an empty file system, call by call. *)
Example two_passes_trace :
  trace (world_of (script demo_env 2 (boot empty_fs))) =
  [ EvMkdir "./output-transcripts";
    EvPrint "Recording 60s..."; EvRec 960000 16000 1; EvWait; EvSfWrite "temp.wav";
    EvTranscribe "temp.wav"; EvNow;
    EvOpen "./output-transcripts/voice_2025-11-02_013000.txt";
    EvWrite "./output-transcripts/voice_2025-11-02_013000.txt" "0";
    EvPrint "Saved transcript to ./output-transcripts/voice_2025-11-02_013000.txt";
    EvSleep 2;
    EvPrint "Recording 60s..."; EvRec 960000 16000 1; EvWait; EvSfWrite "temp.wav";
    EvTranscribe "temp.wav"; EvNow;
    EvOpen "./output-transcripts/voice_2025-11-02_013001.txt";
    EvWrite "./output-transcripts/voice_2025-11-02_013001.txt" "1";
    EvPrint "Saved transcript to ./output-transcripts/voice_2025-11-02_013001.txt";
    EvSleep 2 ].
Proof. vm_compute. reflexivity. Qed.

(** Without the output directory the first transcript cannot be opened. *)
Example no_directory_no_transcript :
  exists wf,
    while_true 1 (loop_body demo_env demo_model) (boot empty_fs) =
    Raise FileNotFoundError wf /\
    trace wf = [ EvPrint "Recording 60s..."; EvRec 960000 16000 1; EvWait;
                 EvSfWrite "temp.wav"; EvTranscribe "temp.wav"; EvNow ].
Proof.
  pose proof (record_chunk_ok demo_env default_filename default_duration
                (demo_signal 0) (boot empty_fs)
                ltac:(unfold default_duration; lia) eq_refl
                ltac:(cbn [files boot]; unfold empty_fs; rewrite lookup_empty; discriminate)
                eq_refl) as Hrec.
  eexists. split.
  - cbn [while_true]. apply bind_raise. unfold loop_body.
    rewrite (bind_ok _ _ _ _ _ Hrec). apply bind_raise.
    apply (transcribe_to_file_no_directory demo_env demo_model "temp.wav"
             (chunk_of (demo_signal 0)) (demo_res 0)).
    + apply lookup_insert_eq.
    + apply demo_model_chunk.
    + cbn [files]. rewrite lookup_insert_ne by discriminate. apply lookup_empty.
    + cbn [files]. rewrite lookup_insert_ne by (symmetry; apply out_path_ne_temp).
      apply lookup_empty.
  - reflexivity.
Qed.

(** * Further properties of the script *)

(** ** Counting without repeats *)

Lemma remove_dups_length_le (l : list string) :
  (length (remove_dups l) <= length l)%nat.
Proof.
  induction l as [|x l IH]; [reflexivity|].
  cbn [remove_dups]. case_decide; cbn [length]; lia.
Qed.

Lemma remove_dups_length_lt (l : list string) :
  ~ NoDup l -> (length (remove_dups l) < length l)%nat.
Proof.
  induction l as [|x l IH]; intros Hnd.
  - destruct Hnd. constructor.
  - cbn [remove_dups]. case_decide as Hx; cbn [length].
    + pose proof (remove_dups_length_le l). lia.
    + assert (~ NoDup l) as Hl by (intros Hl; apply Hnd; now constructor).
      specialize (IH Hl). lia.
Qed.

Lemma size_list_to_set_remove_dups (l : list string) :
  size (list_to_set (C := gset string) l) = length (remove_dups l).
Proof.
  rewrite <- (size_list_to_set (C := gset string) (remove_dups l))
    by apply NoDup_remove_dups.
  f_equal. apply set_eq. intros x.
  now rewrite !elem_of_list_to_set, elem_of_remove_dups.
Qed.

Lemma remove_dups_map_inj (f : string -> string) (l : list string) :
  (forall x y, f x = f y -> x = y) ->
  length (remove_dups (map f l)) = length (remove_dups l).
Proof.
  intros Hinj. induction l as [|x l IH]; [reflexivity|].
  cbn [map remove_dups].
  assert (Hiff : f x ∈ map f l <-> x ∈ l).
  { rewrite !list_elem_of_In, in_map_iff. split.
    - intros (y & Hy & Hin). apply Hinj in Hy. now subst.
    - intros Hin. now exists x. }
  repeat case_decide; cbn [length]; try tauto; now rewrite IH.
Qed.

(** ** Names sort by time *)

Lemma ascii_compare_refl (c : ascii) : Ascii.compare c c = Eq.
Proof. unfold Ascii.compare. apply N.compare_refl. Qed.

Lemma string_compare_refl (s : string) : String.compare s s = Eq.
Proof.
  induction s as [|c s IH]; [reflexivity|].
  cbn [String.compare]. now rewrite ascii_compare_refl.
Qed.

Lemma string_compare_cons (c1 c2 : ascii) (s1 s2 : string) :
  String.compare (String c1 s1) (String c2 s2) =
  match Ascii.compare c1 c2 with
  | Eq => String.compare s1 s2
  | ne => ne
  end.
Proof. reflexivity. Qed.

Lemma string_compare_app_l (p a b : string) :
  String.compare (p +:+ a) (p +:+ b) = String.compare a b.
Proof.
  induction p as [|c p IH]; [reflexivity|].
  rewrite !append_cons, string_compare_cons, ascii_compare_refl. exact IH.
Qed.

Lemma string_compare_app_r (a b s : string) :
  String.length a = String.length b ->
  String.compare (a +:+ s) (b +:+ s) = String.compare a b.
Proof.
  revert b. induction a as [|c a IH]; intros [|d b] Hlen; try discriminate Hlen.
  - rewrite !append_nil_l. apply string_compare_refl.
  - rewrite !append_cons, !string_compare_cons.
    rewrite IH by (cbn [String.length] in Hlen; lia). reflexivity.
Qed.

Lemma digit_compare (a b : Z) :
  Ascii.compare (digit a) (digit b) = (a `mod` 10 ?= b `mod` 10).
Proof.
  unfold Ascii.compare, digit.
  pose proof (Z.mod_pos_bound a 10 eq_refl). pose proof (Z.mod_pos_bound b 10 eq_refl).
  assert (Hlt : forall x, 0 <= x < 10 -> (48 + Z.to_N x < 256)%N).
  { intros x Hx. change 256%N with (48 + 208)%N. apply N.add_lt_mono_l.
    change 208%N with (Z.to_N 208). apply Z2N.inj_lt; lia. }
  rewrite !N_ascii_embedding by now apply Hlt.
  rewrite <- N2Z.inj_compare, !N2Z.inj_add, !Z2N.id by lia.
  apply Z.add_compare_mono_l.
Qed.

(** Decides every comparison in the goal, one after the other. *)
Ltac compare_cases :=
  repeat match goal with
         | |- context [match (?x ?= ?y) with _ => _ end] =>
             destruct (Z.compare_spec x y)
         end.

(** Comparing two digits one after the other compares the number. *)
Lemma lex2 (a b : Z) (K : comparison) :
  0 <= a < 100 -> 0 <= b < 100 ->
  match (a `div` 10) `mod` 10 ?= (b `div` 10) `mod` 10 with
  | Eq => match a `mod` 10 ?= b `mod` 10 with Eq => K | ne => ne end
  | ne => ne
  end = match a ?= b with Eq => K | ne => ne end.
Proof.
  intros Ha Hb.
  destruct (Z.compare_spec a b) as [E|E|E]; compare_cases;
    try reflexivity; exfalso; Z.to_euclidean_division_equations; lia.
Qed.

Lemma lex4 (a b : Z) (K : comparison) :
  0 <= a < 10000 -> 0 <= b < 10000 ->
  match (a `div` 1000) `mod` 10 ?= (b `div` 1000) `mod` 10 with
  | Eq => match (a `div` 100) `mod` 10 ?= (b `div` 100) `mod` 10 with
          | Eq => match (a `div` 10) `mod` 10 ?= (b `div` 10) `mod` 10 with
                  | Eq => match a `mod` 10 ?= b `mod` 10 with Eq => K | ne => ne end
                  | ne => ne
                  end
          | ne => ne
          end
  | ne => ne
  end = match a ?= b with Eq => K | ne => ne end.
Proof.
  intros Ha Hb.
  destruct (Z.compare_spec a b) as [E|E|E]; compare_cases;
    try reflexivity; exfalso; Z.to_euclidean_division_equations; lia.
Qed.

Lemma stamp_text_compare (dt1 dt2 : DateTime) :
  valid_datetime dt1 -> valid_datetime dt2 ->
  String.compare (stamp_text dt1) (stamp_text dt2) = (stamp_key dt1 ?= stamp_key dt2).
Proof.
  intros (Hy1 & Hm1 & Hd1 & HH1 & HM1 & HS1 & _) (Hy2 & Hm2 & Hd2 & HH2 & HM2 & HS2 & _).
  unfold stamp_text, YYYY, DD, stamp_key. cbv [String.append].
  rewrite !string_compare_cons, !digit_compare, !ascii_compare_refl.
  cbv beta iota. cbn [String.compare].
  rewrite lex4, !lex2 by lia.
  symmetry. compare_cases.
  all: first [apply Z.compare_eq_iff | apply Z.compare_lt_iff | apply Z.compare_gt_iff].
  all: lia.
Qed.

(** X10. The names of two transcripts written at valid clock readings
    compare, character by character, the way the two readings compare to
    the second: listing the output directory by name lists the transcripts
    in the order of their timestamps. *)
Theorem names_sort_by_time (dt1 dt2 : DateTime) :
  valid_datetime dt1 -> valid_datetime dt2 ->
  String.compare (out_path (strftime "%Y-%m-%d_%H%M%S" dt1))
                 (out_path (strftime "%Y-%m-%d_%H%M%S" dt2))
  = (stamp_key dt1 ?= stamp_key dt2).
Proof.
  intros H1 H2. rewrite !strftime_stamp_text by assumption.
  unfold out_path. rewrite !string_compare_app_l.
  rewrite string_compare_app_r by reflexivity.
  now apply stamp_text_compare.
Qed.

Section Further.

Context {Sample : Type} (env : Env Sample).

Implicit Types (w : World Sample) (fs : gmap string (Node Sample)).

(** X1. Two transcripts written at valid clock readings get the same file
    name exactly when the two readings fall into the same second; the
    microseconds never tell them apart. *)
Theorem names_collide_iff_same_second (dt1 dt2 : DateTime) :
  valid_datetime dt1 -> valid_datetime dt2 ->
  out_path (strftime "%Y-%m-%d_%H%M%S" dt1) = out_path (strftime "%Y-%m-%d_%H%M%S" dt2)
  <-> same_second dt1 dt2.
Proof.
  intros H1 H2. rewrite <- (strftime_stamp_same_second dt1 dt2 H1 H2).
  split; [apply out_path_inj | now intros ->].
Qed.

Lemma written_stamps_read (n : nat) :
  written env n = map out_path (stamps_read env n).
Proof. unfold written, stamps_read. now rewrite map_map. Qed.

Lemma stamps_read_length (n : nat) : length (stamps_read env n) = n.
Proof. unfold stamps_read. now rewrite length_map, length_seq. Qed.

Lemma stamps_read_S (n : nat) :
  stamps_read env (S n) = stamps_read env n ++ [timestamp env n].
Proof. unfold stamps_read. now rewrite seq_S, map_app. Qed.

Lemma timestamp_in_stamps_read (n k : nat) :
  (k < n)%nat -> timestamp env k ∈ stamps_read env n.
Proof.
  intros Hk. unfold stamps_read. rewrite list_elem_of_In, in_map_iff.
  exists k. split; [reflexivity | apply in_seq; lia].
Qed.

(** Without repeats among the timestamps read, no two passes share one. *)
Lemma stamps_read_NoDup (n : nat) :
  NoDup (stamps_read env n) ->
  forall i j, (i < j < n)%nat -> timestamp env i <> timestamp env j.
Proof.
  induction n as [|n IH]; intros Hnd i j Hij; [lia|].
  rewrite stamps_read_S in Hnd. apply NoDup_app in Hnd as (Hl & Hdisj & _).
  destruct (decide (j = n)) as [->|Hne].
  - intros E. apply (Hdisj (timestamp env i)).
    + apply timestamp_in_stamps_read. lia.
    + rewrite E. apply list_elem_of_here.
  - apply IH; [exact Hl | lia].
Qed.

(** X2. After [n] healthy passes from an empty output directory, the
    directory holds as many transcripts as the passes read distinct
    timestamps: never more than [n], and fewer than [n] as soon as two
    passes read the clock in the same second. *)
Theorem transcripts_count_distinct_stamps (MODEL : Model Sample)
    (sig : nat -> nat -> Sample) (res : nat -> TranscribeResult) fs (n : nat) :
  HealthyRun env MODEL sig res fs n ->
  listdir OUT_DIR fs = ∅ ->
  exists w,
    script env n (boot fs) = Ok tt w /\
    size (listdir OUT_DIR (files w)) = length (remove_dups (stamps_read env n)) /\
    (size (listdir OUT_DIR (files w)) <= n)%nat /\
    (forall i j, (i < j < n)%nat -> same_second (clock env i) (clock env j) ->
                 (size (listdir OUT_DIR (files w)) < n)%nat).
Proof.
  intros Hrun Hempty. exists (world_after env sig res n fs).
  assert (Hsize : size (listdir OUT_DIR (files (world_after env sig res n fs))) =
                  length (remove_dups (stamps_read env n))).
  { replace (listdir OUT_DIR (files (world_after env sig res n fs)))
      with (list_to_set (C := gset string) (written env n)).
    - rewrite size_list_to_set_remove_dups, written_stamps_read.
      apply remove_dups_map_inj, out_path_inj.
    - apply set_eq. intros p. cbn [world_after files].
      rewrite listdir_files_after, listdir_started, Hempty, elem_of_list_to_set.
      split; [now left|]. intros [Hin|Hin]; [exact Hin|].
      now apply not_elem_of_empty in Hin. }
  split; [now apply (script_healthy env MODEL)|]. split; [exact Hsize|].
  rewrite Hsize. split.
  - rewrite <- (stamps_read_length n) at 2. apply remove_dups_length_le.
  - intros i j Hij Hsame. rewrite <- (stamps_read_length n) at 2.
    apply remove_dups_length_lt. intros Hnd.
    apply (stamps_read_NoDup n Hnd i j Hij). now apply same_second_stamp.
Qed.

(** X3. In a healthy run a transcript, once written, keeps its text
    through all later passes that read the clock in another second. *)
Theorem transcript_survives (MODEL : Model Sample) (sig : nat -> nat -> Sample)
    (res : nat -> TranscribeResult) fs (n k : nat) :
  HealthyRun env MODEL sig res fs n ->
  (k < n)%nat ->
  (forall j, (j < n)%nat -> valid_datetime (clock env j)) ->
  (forall j, (k < j < n)%nat -> ~ same_second (clock env j) (clock env k)) ->
  exists wk w,
    script env (S k) (boot fs) = Ok tt wk /\
    script env n (boot fs) = Ok tt w /\
    files wk !! out_path (timestamp env k) = Some (TextFile (text (res k))) /\
    files w !! out_path (timestamp env k) = Some (TextFile (text (res k))).
Proof.
  intros Hrun Hk Hvalid Hlater.
  exists (world_after env sig res (S k) fs), (world_after env sig res n fs).
  split; [|split; [|split]].
  - apply (script_healthy env MODEL).
    apply (HealthyRun_le env MODEL sig res fs (S k) n); [lia | exact Hrun].
  - now apply (script_healthy env MODEL).
  - cbn [world_after files]. apply files_after_last; [lia|]. intros j Hj. lia.
  - cbn [world_after files]. apply files_after_last; [exact Hk|].
    intros j Hj E. apply (Hlater j Hj).
    apply (strftime_stamp_same_second (clock env j) (clock env k)); [apply Hvalid; lia.. | exact E].
Qed.

(** ** What the script touches *)

Lemma confined_refl w : confined w w.
Proof.
  split; [|trivial]. exists []. rewrite app_nil_r.
  split; [reflexivity|]. split; [intros p [] | reflexivity].
Qed.

Lemma confined_trans w1 w2 w3 : confined w1 w2 -> confined w2 w3 -> confined w1 w3.
Proof.
  intros [(e1 & T1 & O1 & F1) K1] [(e2 & T2 & O2 & F2) K2]. split.
  - exists (e1 ++ e2). split; [now rewrite T2, T1, app_assoc|]. split.
    + intros p [Hin|Hin]%in_app_or; [now apply O1 | now apply O2].
    + intros p Hp Hno. transitivity (files w2 !! p).
      * apply F2; [exact Hp|]. intros Hin. apply Hno, in_or_app. now right.
      * apply F1; [exact Hp|]. intros Hin. apply Hno, in_or_app. now left.
  - intros p Hs. now apply K2, K1.
Qed.

Lemma confined_bind {A B} (m : M Sample A) (k : A -> M Sample B) :
  preserves confined m -> (forall a, preserves confined (k a)) ->
  preserves confined (bind m k).
Proof.
  intros Hm Hk w. specialize (Hm w). unfold bind.
  destruct (m w) as [a w1|e w1]; cbn [world_of] in *; [|exact Hm].
  eapply confined_trans; [exact Hm | apply Hk].
Qed.

(** A call that leaves the files alone and is no [open]. *)
Lemma confined_call (ev : Event) w w' :
  files w' = files w -> trace w' = trace w ++ [ev] ->
  (forall p, ev <> EvOpen p) -> confined w w'.
Proof.
  intros Hf Ht Hev. split.
  - exists [ev]. split; [exact Ht|]. split.
    + intros p [E|[]]. now apply Hev in E.
    + intros p _ _. now rewrite Hf.
  - intros p. now rewrite Hf.
Qed.

Lemma confined_emit (ev : Event) :
  (forall p, ev <> EvOpen p) -> preserves (Sample := Sample) confined (emit ev).
Proof. intros Hev w. now apply (confined_call ev). Qed.

Lemma confined_sd_rec (frames rate channels : Z) :
  preserves confined (sd_rec env frames rate channels).
Proof.
  intros w. unfold sd_rec. case_bool_decide; [apply confined_refl|].
  destruct (mic env (n_rec w)) as [e|sig]; cbn [world_of]; [apply confined_refl|].
  eapply confined_call; [reflexivity | reflexivity | discriminate].
Qed.

Lemma confined_sf_write (data : Buffer Sample) (rate : Z) :
  preserves confined (sf_write "temp.wav" data rate).
Proof.
  intros w. unfold sf_write.
  destruct (files w !! "temp.wav") as [[| a | s]|] eqn:E;
    try destruct (parent_ok (files w) "temp.wav");
    cbn [world_of]; try apply confined_refl.
  all: split; cbn [files trace log set_files].
  all: try (exists [EvSfWrite "temp.wav"]; split; [reflexivity|]; split;
            [intros p [Hp|[]]; discriminate Hp
            | intros p Hp _; now rewrite lookup_insert_ne by congruence]).
  all: intros p Hs; rewrite lookup_insert; case_decide; [eauto | exact Hs].
Qed.

Lemma confined_record_chunk (duration : Z) :
  preserves confined (record_chunk env default_filename duration).
Proof.
  unfold record_chunk, default_filename, print, sd_wait.
  apply confined_bind; [apply confined_emit; discriminate | intros _].
  apply confined_bind; [apply confined_sd_rec | intros audio].
  apply confined_bind; [apply confined_emit; discriminate | intros _].
  apply confined_sf_write.
Qed.

Lemma confined_model_transcribe (MODEL : Model Sample) (path : string) :
  preserves confined (model_transcribe MODEL path).
Proof.
  intros w. unfold model_transcribe.
  destruct (files w !! path) as [[| a | s]|]; cbn [world_of]; try apply confined_refl.
  destruct (MODEL a) as [e|r]; cbn [world_of]; [apply confined_refl|].
  eapply confined_call; [reflexivity | reflexivity | discriminate].
Qed.

Lemma confined_datetime_now : preserves confined (datetime_now env).
Proof.
  intros w. unfold datetime_now. cbn [world_of].
  eapply confined_call; [reflexivity | reflexivity | discriminate].
Qed.

(** Opening a path of the output directory, writing and announcing it. *)
Lemma confined_open_write (p t line : string) :
  dirname p = OUT_DIR ->
  preserves (Sample := Sample) confined
    (bind (open_w p) (fun f => bind (file_write f t) (fun _ => print line))).
Proof.
  intros Hdir w. unfold bind at 1. unfold open_w.
  assert (Hok :
    confined w
      (world_of
         (bind (file_write p t) (fun _ => print line)
            (log (EvOpen p) (set_files (insert p (TextFile EmptyString)) w))))).
  { unfold bind, file_write. cbn [files log set_files].
    rewrite lookup_insert_eq. unfold print, emit, log, set_files.
    cbn [world_of files trace].
    split; cbn [files trace].
    - exists [EvOpen p; EvWrite p t; EvPrint line].
      split; [now rewrite <- !app_assoc|]. split.
      + intros q [E|[E|[E|[]]]]; try discriminate E. now injection E as <-.
      + intros q _ Hno. rewrite !lookup_insert_ne; [reflexivity | |];
          intros <-; apply Hno; now left.
    - intros q Hs. rewrite lookup_insert. case_decide; [eauto|].
      rewrite lookup_insert. case_decide; [eauto | exact Hs]. }
  destruct (files w !! p) as [[| a | s]|] eqn:E;
    try destruct (parent_ok (files w) p);
    cbn [world_of]; first [exact Hok | apply confined_refl].
Qed.

Lemma confined_transcribe_to_file (MODEL : Model Sample) (wav_path : string) :
  preserves confined (transcribe_to_file env MODEL wav_path).
Proof.
  unfold transcribe_to_file.
  apply confined_bind; [apply confined_model_transcribe | intros result].
  apply confined_bind; [apply confined_datetime_now | intros now].
  apply confined_open_write.
  apply dirname_out_path, strftime_stamp_no_slash.
Qed.

Lemma confined_loop_body (MODEL : Model Sample) :
  preserves confined (loop_body env MODEL).
Proof.
  unfold loop_body.
  apply confined_bind; [apply confined_record_chunk | intros _].
  apply confined_bind; [apply confined_transcribe_to_file | intros _].
  apply confined_emit. discriminate.
Qed.

Lemma confined_while_true (n : nat) (body : M Sample unit) :
  preserves confined body -> preserves confined (while_true n body).
Proof.
  intros Hb. induction n as [|n IH]; cbn [while_true].
  - intros w. apply confined_refl.
  - apply confined_bind; [exact Hb | intros _; exact IH].
Qed.

(** Module initialisation touches the name of the output directory only. *)
Lemma startup_touches fs :
  let ws := world_of (startup env (boot fs)) in
  (forall p, p <> OUT_DIR -> files ws !! p = fs !! p) /\
  (forall p, is_Some (fs !! p) -> is_Some (files ws !! p)) /\
  (forall p, ~ In (EvOpen p) (trace ws)).
Proof.
  intros ws. unfold ws. rewrite startup_world.
  destruct (whisper_load_model env "base"), (fs !! OUT_DIR) eqn:E;
    cbn [files trace boot]; repeat split; try tauto.
  - intros p Hp. now rewrite lookup_insert_ne by congruence.
  - intros p Hs. rewrite lookup_insert. case_decide; [eauto | exact Hs].
  - intros p [Hp|[]]. discriminate Hp.
Qed.

(** X4. Whatever the number of passes and however the script ends, it
    opens for writing only paths directly inside the output directory, and
    every path other than [temp.wav], the directory itself and the paths it
    opened holds exactly what it held before the script started; no path
    that existed is gone. *)
Theorem script_touches_only_its_files (n : nat) fs :
  let w := world_of (script env n (boot fs)) in
  (forall p, In (EvOpen p) (trace w) -> dirname p = OUT_DIR) /\
  (forall p, p <> "temp.wav" -> p <> OUT_DIR -> ~ In (EvOpen p) (trace w) ->
             files w !! p = fs !! p) /\
  (forall p, is_Some (fs !! p) -> is_Some (files w !! p)).
Proof.
  intros w.
  assert (Hconf : confined (world_of (startup env (boot fs))) w).
  { unfold w, script, bind.
    destruct (startup env (boot fs)) as [MODEL w1|e w1]; cbn [world_of].
    - apply confined_while_true, confined_loop_body.
    - apply confined_refl. }
  destruct (startup_touches fs) as (Hs1 & Hs2 & Hs3).
  destruct Hconf as [(evs & Ht & Ho & Hf) Hk].
  split; [|split].
  - intros p Hin. rewrite Ht in Hin. apply in_app_or in Hin as [Hin|Hin].
    + now apply Hs3 in Hin.
    + now apply Ho.
  - intros p Htmp Hdir Hno. rewrite Hf, Hs1; [reflexivity | exact Hdir | exact Htmp |].
    intros Hin. apply Hno. rewrite Ht. apply in_or_app. now right.
  - intros p Hs. now apply Hk, Hs2.
Qed.

(** ** What a failure leaves behind *)

(** A healthy run up to pass [n], as the loop sees it after start-up. *)
Lemma script_then_pass (MODEL : Model Sample) (sig : nat -> nat -> Sample)
    (res : nat -> TranscribeResult) fs (n m : nat) (e : Exn) wf :
  HealthyRun env MODEL sig res fs n ->
  loop_body env MODEL (world_after env sig res n fs) = Raise e wf ->
  (n < m)%nat ->
  script env m (boot fs) = Raise e wf.
Proof.
  intros Hrun Hfail Hlt. pose proof (script_healthy env MODEL sig res fs n Hrun) as Hn.
  destruct Hrun as [Hload Hdir Hh]. unfold script in *.
  rewrite (bind_ok _ _ _ _ _ (startup_ok env MODEL fs Hload Hdir)) in Hn.
  rewrite (bind_ok _ _ _ _ _ (startup_ok env MODEL fs Hload Hdir)).
  now apply (while_true_failure env MODEL n m _ _ e wf Hn).
Qed.

Lemma world_after_temp (MODEL : Model Sample) (sig : nat -> nat -> Sample)
    (res : nat -> TranscribeResult) fs (n : nat) :
  HealthyRun env MODEL sig res fs n ->
  files (world_after env sig res n fs) !! default_filename <> Some Dir.
Proof.
  intros [_ _ [_ _ Htmp _]] E. cbn [world_after files] in E.
  apply files_after_Dir in E. rewrite lookup_insert_ne in E by discriminate.
  contradiction.
Qed.

(** X5. When the model fails on the chunk of pass [n] after [n] healthy
    passes, the script ends with that exception, and what it leaves is the
    state after those [n] passes plus the chunk just recorded in
    [temp.wav]: the clock was not read, no transcript was opened for the
    failed pass, the earlier transcripts are as they were. *)
Theorem transcription_failure_state (MODEL : Model Sample)
    (sig : nat -> nat -> Sample) (res : nat -> TranscribeResult) fs (n m : nat)
    (sig_n : nat -> Sample) (e : Exn) :
  HealthyRun env MODEL sig res fs n ->
  mic env n = inr sig_n ->
  MODEL (chunk_of sig_n) = inl e ->
  (n < m)%nat ->
  exists wn wf,
    script env n (boot fs) = Ok tt wn /\
    script env m (boot fs) = Raise e wf /\
    files wf = <["temp.wav" := WavFile (chunk_of sig_n)]> (files wn) /\
    trace wf = trace wn ++ [ EvPrint "Recording 60s..."; EvRec 960000 16000 1;
                             EvWait; EvSfWrite "temp.wav" ].
Proof.
  intros Hrun Hmic Hmodel Hlt.
  pose proof (record_chunk_ok env default_filename default_duration sig_n
                (world_after env sig res n fs)
                ltac:(unfold default_duration; lia) Hmic
                (world_after_temp MODEL sig res fs n Hrun) eq_refl) as Hrec.
  exists (world_after env sig res n fs). eexists.
  split; [now apply (script_healthy env MODEL)|]. split.
  - apply (script_then_pass MODEL sig res fs n m); [exact Hrun | | exact Hlt].
    unfold loop_body. rewrite (bind_ok _ _ _ _ _ Hrec). apply bind_raise.
    apply (transcribe_to_file_model_failure env MODEL "temp.wav" (chunk_of sig_n));
      [apply lookup_insert_eq | exact Hmodel].
  - split; reflexivity.
Qed.

(** X6. When the input device fails in pass [n] after [n] healthy passes,
    the script ends with the device's exception having printed the
    recording line of the failed pass and nothing more: the files are
    exactly those after the [n] passes, so [temp.wav] still holds the chunk
    of the pass before. *)
Theorem device_failure_state (MODEL : Model Sample)
    (sig : nat -> nat -> Sample) (res : nat -> TranscribeResult) fs (n m : nat)
    (e : Exn) :
  HealthyRun env MODEL sig res fs n ->
  mic env n = inl e ->
  (n < m)%nat ->
  exists wn wf,
    script env n (boot fs) = Ok tt wn /\
    script env m (boot fs) = Raise e wf /\
    files wf = files wn /\
    trace wf = trace wn ++ [EvPrint "Recording 60s..."].
Proof.
  intros Hrun Hmic Hlt.
  exists (world_after env sig res n fs). eexists.
  split; [now apply (script_healthy env MODEL)|]. split.
  - apply (script_then_pass MODEL sig res fs n m); [exact Hrun | | exact Hlt].
    unfold loop_body. apply bind_raise.
    apply (record_chunk_device_failure env);
      [unfold default_duration; lia | exact Hmic].
  - split; reflexivity.
Qed.

(** X7. [transcribe_to_file] does not create the output directory: called
    where it is missing, it transcribes, reads the clock, and then fails to
    open the transcript with [FileNotFoundError], leaving the files as they
    were. *)
Theorem transcribe_needs_output_dir (MODEL : Model Sample) (wav_path : string)
    (a : Wav Sample) (r : TranscribeResult) w :
  files w !! wav_path = Some (WavFile a) ->
  MODEL a = inr r ->
  files w !! OUT_DIR = None ->
  files w !! out_path (timestamp env (n_now w)) <> Some Dir ->
  exists wf,
    transcribe_to_file env MODEL wav_path w = Raise FileNotFoundError wf /\
    files wf = files w /\
    trace wf = trace w ++ [EvTranscribe wav_path; EvNow].
Proof.
  intros Hwav Hmodel Hdir Hnd. eexists. split.
  - unfold transcribe_to_file.
    unfold bind at 1. unfold model_transcribe. rewrite Hwav, Hmodel.
    unfold bind at 1. unfold datetime_now.
    fold (timestamp env (n_now (log (EvTranscribe wav_path) w))).
    fold (out_path (timestamp env (n_now (log (EvTranscribe wav_path) w)))).
    cbn [n_now log]. unfold bind, open_w. cbn [files log tick_now].
    unfold parent_ok. rewrite dirname_timestamp.
    rewrite bool_decide_eq_false_2 by discriminate. rewrite Hdir.
    destruct (files w !! out_path (timestamp env (n_now w))) as [[| a' | s]|];
      [contradiction | reflexivity..].
  - unfold log, tick_now. cbn [files trace]. split; [reflexivity|].
    now rewrite <- app_assoc.
Qed.

(** X8. When module initialisation fails, because the model does not load
    or because a file that is no directory has the name of the output
    directory, no pass runs: the script ends with that exception and the
    world it started in, whatever number of passes was asked for; a model
    that does not load keeps even the directory from being created. *)
Theorem startup_failure_runs_nothing fs (e : Exn) (n : nat) :
  (whisper_load_model env "base" = inl e \/
   (e = FileExistsError /\
    (exists MODEL, whisper_load_model env "base" = inr MODEL) /\
    exists node, fs !! OUT_DIR = Some node /\ node <> Dir)) ->
  script env n (boot fs) = Raise e (boot fs).
Proof.
  intros [Hload|(-> & (MODEL & Hload) & node & Hnode & Hnd)];
    unfold script, bind, startup; rewrite Hload; [reflexivity|].
  unfold bind, os_makedirs. cbn [files boot]. rewrite Hnode.
  destruct node; [contradiction | reflexivity..].
Qed.

(** X9. A negative duration is rejected before the device is asked:
    [record_chunk] prints its line, raises [ValueError], records nothing
    and writes no file. *)
Theorem negative_duration_rejected (filename : string) (duration : Z) w :
  duration < 0 ->
  exists wf,
    record_chunk env filename duration w = Raise ValueError wf /\
    files wf = files w /\
    n_rec wf = n_rec w /\
    trace wf = trace w ++ [EvPrint ("Recording " +:+ str duration +:+ "s...")].
Proof.
  intros Hd. eexists. split.
  - unfold record_chunk, bind, print, emit, sd_rec, int.
    now rewrite bool_decide_eq_true_2 by lia.
  - repeat split.
Qed.

(** ** Every failure ends the script *)

Lemma record_chunk_sound_file_failure (filename : string) (duration : Z)
    (sig : nat -> Sample) w :
  0 <= duration ->
  mic env (n_rec w) = inr sig ->
  files w !! filename = Some Dir ->
  record_chunk env filename duration w =
  Raise LibsndfileError
    {| files := files w;
       trace := trace w ++ [ EvPrint ("Recording " +:+ str duration +:+ "s...");
                             EvRec (duration * 16000) 16000 1; EvWait ];
       n_rec := S (n_rec w);
       n_now := n_now w |}.
Proof.
  intros Hd Hmic Hdir. unfold record_chunk.
  rewrite (bind_ok _ _ _ tt (log (EvPrint ("Recording " +:+ str duration +:+ "s...")) w))
    by reflexivity.
  unfold bind at 1. unfold sd_rec, int. cbn [n_rec log].
  rewrite bool_decide_eq_false_2 by lia. rewrite Hmic.
  unfold bind at 1. unfold sd_wait, emit.
  unfold sf_write, log, tick_rec. cbn [files trace n_rec n_now]. rewrite Hdir.
  now rewrite <- !app_assoc.
Qed.

Lemma transcribe_to_file_target_directory (MODEL : Model Sample) (wav_path : string)
    (a : Wav Sample) (r : TranscribeResult) w :
  files w !! wav_path = Some (WavFile a) ->
  MODEL a = inr r ->
  files w !! out_path (timestamp env (n_now w)) = Some Dir ->
  transcribe_to_file env MODEL wav_path w =
  Raise IsADirectoryError
    {| files := files w;
       trace := trace w ++ [EvTranscribe wav_path; EvNow];
       n_rec := n_rec w;
       n_now := S (n_now w) |}.
Proof.
  intros Hwav Hmodel Hdir. unfold transcribe_to_file.
  unfold bind at 1. unfold model_transcribe. rewrite Hwav, Hmodel.
  unfold bind at 1. unfold datetime_now.
  fold (timestamp env (n_now (log (EvTranscribe wav_path) w))).
  fold (out_path (timestamp env (n_now (log (EvTranscribe wav_path) w)))).
  cbn [n_now log]. unfold bind, open_w. cbn [files log tick_now]. rewrite Hdir.
  unfold log, tick_now. cbn [files trace n_rec n_now]. now rewrite <- app_assoc.
Qed.

(** The first pass of the loop raises: so does the script. *)
Lemma script_first_pass (MODEL : Model Sample) fs (m : nat) (e : Exn) wf :
  whisper_load_model env "base" = inr MODEL ->
  fs !! OUT_DIR = None \/ fs !! OUT_DIR = Some Dir ->
  loop_body env MODEL
    {| files := <[OUT_DIR := Dir]> fs; trace := startup_events fs;
       n_rec := 0; n_now := 0 |} = Raise e wf ->
  (0 < m)%nat ->
  script env m (boot fs) = Raise e wf.
Proof.
  intros Hload Hdir Hfail Hm. unfold script.
  rewrite (bind_ok _ _ _ _ _ (startup_ok env MODEL fs Hload Hdir)).
  now apply (while_true_failure env MODEL 0 m _ _ e wf eq_refl).
Qed.

(** A directory found where pass [n] writes is still there after the [n]
    healthy passes before it. *)
Lemma blocked_target_stays (MODEL : Model Sample) (sig : nat -> nat -> Sample)
    (res : nat -> TranscribeResult) fs (n : nat) :
  Healthy env MODEL sig res fs n ->
  fs !! out_path (timestamp env n) = Some Dir ->
  files_after env sig res n (<[OUT_DIR := Dir]> fs) !! out_path (timestamp env n)
  = Some Dir.
Proof.
  intros [_ _ _ Htarget] Hdir.
  rewrite files_after_other.
  - rewrite lookup_insert_ne; [exact Hdir|].
    intros E. symmetry in E. now apply out_path_ne_OUT_DIR in E.
  - apply out_path_ne_temp.
  - intros k Hk E. apply (Htarget k Hk). now rewrite <- E.
Qed.

(** C7. With the model loaded and the output directory in place or
    creatable, whatever makes pass [n] fail ends the whole script, for
    every number of passes greater than [n], with the exception of the call
    that failed and the world exactly as that call left it, nothing caught,
    retried or cleaned up:
    - the device fails in the recording of pass [n] after [n] healthy
      passes: its exception, after the recording line only;
    - [temp.wav] is a directory, so the sound file cannot be written in the
      first pass: [LibsndfileError], after the recording was made;
    - the model fails on the chunk of pass [n]: its exception, the chunk
      left in [temp.wav], the clock not read;
    - a directory has the name of the transcript of pass [n]:
      [IsADirectoryError], the chunk left in [temp.wav], the clock read,
      nothing written. *)
Theorem failure_ends_the_script (MODEL : Model Sample) (sig : nat -> nat -> Sample)
    (res : nat -> TranscribeResult) fs (n m : nat) :
  whisper_load_model env "base" = inr MODEL ->
  fs !! OUT_DIR = None \/ fs !! OUT_DIR = Some Dir ->
  (n < m)%nat ->
  let wn := world_after env sig res n fs in
  (forall e,
     Healthy env MODEL sig res fs n ->
     mic env n = inl e ->
     script env m (boot fs) =
     Raise e {| files := files wn;
                trace := trace wn ++ [EvPrint "Recording 60s..."];
                n_rec := n; n_now := n |}) /\
  (forall sig_0,
     n = 0%nat ->
     fs !! "temp.wav" = Some Dir ->
     mic env 0 = inr sig_0 ->
     script env m (boot fs) =
     Raise LibsndfileError
       {| files := files wn;
          trace := trace wn ++ [ EvPrint "Recording 60s..."; EvRec 960000 16000 1;
                                 EvWait ];
          n_rec := 1; n_now := 0 |}) /\
  (forall sig_n e,
     Healthy env MODEL sig res fs n ->
     mic env n = inr sig_n ->
     MODEL (chunk_of sig_n) = inl e ->
     script env m (boot fs) =
     Raise e {| files := <["temp.wav" := WavFile (chunk_of sig_n)]> (files wn);
                trace := trace wn ++ [ EvPrint "Recording 60s..."; EvRec 960000 16000 1;
                                       EvWait; EvSfWrite "temp.wav" ];
                n_rec := S n; n_now := n |}) /\
  (forall sig_n r,
     Healthy env MODEL sig res fs n ->
     mic env n = inr sig_n ->
     MODEL (chunk_of sig_n) = inr r ->
     fs !! out_path (timestamp env n) = Some Dir ->
     script env m (boot fs) =
     Raise IsADirectoryError
       {| files := <["temp.wav" := WavFile (chunk_of sig_n)]> (files wn);
          trace := trace wn ++ [ EvPrint "Recording 60s..."; EvRec 960000 16000 1;
                                 EvWait; EvSfWrite "temp.wav";
                                 EvTranscribe "temp.wav"; EvNow ];
          n_rec := S n; n_now := S n |}).
Proof.
  intros Hload Hdir Hlt wn.
  assert (Hrec : forall sig_n,
            Healthy env MODEL sig res fs n -> mic env n = inr sig_n ->
            record_chunk env default_filename default_duration wn =
            Ok tt {| files := <["temp.wav" := WavFile (chunk_of sig_n)]> (files wn);
                     trace := trace wn ++ [ EvPrint "Recording 60s...";
                                            EvRec 960000 16000 1; EvWait;
                                            EvSfWrite "temp.wav" ];
                     n_rec := S n; n_now := n |}).
  { intros sig_n Hh Hmic.
    apply (record_chunk_ok env default_filename default_duration sig_n wn);
      [unfold default_duration; lia | exact Hmic | | reflexivity].
    apply (world_after_temp MODEL sig res fs n). now split. }
  split; [|split; [|split]].
  - intros e Hh Hmic.
    apply (script_then_pass MODEL sig res fs n m); [now split | | exact Hlt].
    unfold loop_body. apply bind_raise.
    apply (record_chunk_device_failure env default_filename default_duration e wn);
      [unfold default_duration; lia | exact Hmic].
  - intros sig_0 -> Htmp Hmic.
    apply (script_first_pass MODEL fs m); [exact Hload | exact Hdir | | exact Hlt].
    unfold loop_body. apply bind_raise.
    unfold wn, world_after. cbn [files_after trace_after seq flat_map].
    rewrite app_nil_r.
    apply (record_chunk_sound_file_failure default_filename default_duration sig_0);
      [unfold default_duration; lia | exact Hmic |].
    cbn [files]. now rewrite lookup_insert_ne by discriminate.
  - intros sig_n e Hh Hmic Hmodel.
    apply (script_then_pass MODEL sig res fs n m); [now split | | exact Hlt].
    unfold loop_body. rewrite (bind_ok _ _ _ _ _ (Hrec sig_n Hh Hmic)).
    apply bind_raise.
    apply (transcribe_to_file_model_failure env MODEL "temp.wav" (chunk_of sig_n));
      [apply lookup_insert_eq | exact Hmodel].
  - intros sig_n r Hh Hmic Hmodel Htarget.
    apply (script_then_pass MODEL sig res fs n m); [now split | | exact Hlt].
    unfold loop_body. rewrite (bind_ok _ _ _ _ _ (Hrec sig_n Hh Hmic)).
    apply bind_raise.
    rewrite (transcribe_to_file_target_directory MODEL "temp.wav" (chunk_of sig_n) r).
    + cbn [files trace n_rec n_now]. now rewrite <- app_assoc.
    + apply lookup_insert_eq.
    + exact Hmodel.
    + cbn [files n_now]. rewrite lookup_insert_ne by (symmetry; apply out_path_ne_temp).
      now apply (blocked_target_stays MODEL sig res fs n).
Qed.

End Further.

(** * The further properties on the sample environments *)

Lemma stuck_clock_valid (k : nat) : (k < 2)%nat -> valid_datetime (stuck_clock k).
Proof. intros Hk. unfold valid_datetime, stuck_clock. cbn. lia. Qed.

Lemma names_collide_iff_same_second_witness :
  out_path (strftime "%Y-%m-%d_%H%M%S" (stuck_clock 0)) =
  out_path (strftime "%Y-%m-%d_%H%M%S" (stuck_clock 1))
  <-> same_second (stuck_clock 0) (stuck_clock 1).
Proof.
  apply (names_collide_iff_same_second (stuck_clock 0) (stuck_clock 1)).
  - apply stuck_clock_valid. lia.
  - apply stuck_clock_valid. lia.
Defined.

Lemma transcripts_count_distinct_stamps_witness :
  exists w,
    script stuck_env 2 (boot empty_fs) = Ok tt w /\
    size (listdir OUT_DIR (files w)) = length (remove_dups (stamps_read stuck_env 2)) /\
    (size (listdir OUT_DIR (files w)) <= 2)%nat /\
    (forall i j, (i < j < 2)%nat -> same_second (clock stuck_env i) (clock stuck_env j) ->
                 (size (listdir OUT_DIR (files w)) < 2)%nat).
Proof.
  apply (transcripts_count_distinct_stamps stuck_env demo_model demo_signal demo_res
           empty_fs 2).
  - apply stuck_healthy.
  - apply listdir_empty.
Defined.

Lemma demo_clock_valid_below (j : nat) : (j < 60)%nat -> valid_datetime (demo_clock j).
Proof. intros Hj. unfold valid_datetime, demo_clock. cbn. lia. Qed.

Lemma transcript_survives_witness :
  exists wk w,
    script demo_env 1 (boot empty_fs) = Ok tt wk /\
    script demo_env 2 (boot empty_fs) = Ok tt w /\
    files wk !! out_path (timestamp demo_env 0) = Some (TextFile (text (demo_res 0))) /\
    files w !! out_path (timestamp demo_env 0) = Some (TextFile (text (demo_res 0))).
Proof.
  apply (transcript_survives demo_env demo_model demo_signal demo_res empty_fs 2 0).
  - apply demo_healthy.
  - lia.
  - intros j Hj. apply demo_clock_valid_below. lia.
  - intros j Hj (_ & _ & _ & _ & _ & Hs). cbn in Hs. lia.
Defined.

Lemma picky_healthy :
  HealthyRun picky_env picky_model demo_signal demo_res empty_fs 1.
Proof.
  split; [reflexivity | now left |]. split.
  - intros k _. reflexivity.
  - intros [|k] Hk; [|lia]. unfold picky_model, chunk_of. cbn [wav_data].
    destruct (capture_head (demo_signal 0) (int (default_duration * 16000) * 1))
      as [tl ->]; [unfold int, default_duration; lia | reflexivity].
  - unfold empty_fs. now rewrite lookup_empty.
  - intros k _. unfold empty_fs. now rewrite lookup_empty.
Qed.

Lemma picky_model_fails : picky_model (chunk_of (demo_signal 1)) = inl RuntimeError.
Proof.
  unfold picky_model, chunk_of. cbn [wav_data].
  destruct (capture_head (demo_signal 1) (int (default_duration * 16000) * 1))
    as [tl ->]; [unfold int, default_duration; lia | reflexivity].
Qed.

Lemma transcription_failure_state_witness :
  exists wn wf,
    script picky_env 1 (boot empty_fs) = Ok tt wn /\
    script picky_env 4 (boot empty_fs) = Raise RuntimeError wf /\
    files wf = <["temp.wav" := WavFile (chunk_of (demo_signal 1))]> (files wn) /\
    trace wf = trace wn ++ [ EvPrint "Recording 60s..."; EvRec 960000 16000 1;
                             EvWait; EvSfWrite "temp.wav" ].
Proof.
  apply (transcription_failure_state picky_env picky_model demo_signal demo_res
           empty_fs 1 4 (demo_signal 1) RuntimeError).
  - exact picky_healthy.
  - reflexivity.
  - exact picky_model_fails.
  - lia.
Defined.

Lemma deaf_healthy_run :
  HealthyRun deaf_env demo_model demo_signal demo_res empty_fs 1.
Proof.
  apply healthy_from_nothing; [reflexivity|].
  intros [|k] Hk; [reflexivity | lia].
Qed.

Lemma device_failure_state_witness :
  exists wn wf,
    script deaf_env 1 (boot empty_fs) = Ok tt wn /\
    script deaf_env 3 (boot empty_fs) = Raise PortAudioError wf /\
    files wf = files wn /\
    trace wf = trace wn ++ [EvPrint "Recording 60s..."].
Proof.
  apply (device_failure_state deaf_env demo_model demo_signal demo_res empty_fs 1 3
           PortAudioError).
  - exact deaf_healthy_run.
  - reflexivity.
  - lia.
Defined.

Lemma transcribe_needs_output_dir_witness :
  exists wf,
    transcribe_to_file demo_env demo_model "temp.wav" no_dir_world =
    Raise FileNotFoundError wf /\
    files wf = files no_dir_world /\
    trace wf = trace no_dir_world ++ [EvTranscribe "temp.wav"; EvNow].
Proof.
  apply (transcribe_needs_output_dir demo_env demo_model "temp.wav" stale_wav
           {| text := "7"; language := "en" |} no_dir_world).
  - apply lookup_insert_eq.
  - reflexivity.
  - cbn [files no_dir_world]. rewrite lookup_insert_ne by discriminate.
    apply lookup_empty.
  - cbn [files no_dir_world].
    rewrite lookup_insert_ne by (symmetry; apply out_path_ne_temp).
    rewrite lookup_empty. discriminate.
Defined.

Lemma startup_failure_runs_nothing_witness :
  script unloadable_env 3 (boot empty_fs) = Raise RuntimeError (boot empty_fs) /\
  script demo_env 3 (boot name_taken_fs) = Raise FileExistsError (boot name_taken_fs).
Proof.
  split.
  - apply (startup_failure_runs_nothing unloadable_env empty_fs RuntimeError 3).
    left. reflexivity.
  - apply (startup_failure_runs_nothing demo_env name_taken_fs FileExistsError 3).
    right. split; [reflexivity|]. split; [now exists demo_model|].
    exists (TextFile "notes"). split; [apply lookup_insert_eq | discriminate].
Defined.

Lemma negative_duration_rejected_witness :
  exists wf,
    record_chunk demo_env "temp.wav" (-5) (boot empty_fs) = Raise ValueError wf /\
    files wf = files (boot empty_fs) /\
    n_rec wf = n_rec (boot empty_fs) /\
    trace wf = trace (boot empty_fs) ++ [EvPrint ("Recording " +:+ str (-5) +:+ "s...")].
Proof.
  apply (negative_duration_rejected demo_env "temp.wav" (-5) (boot empty_fs)).
  lia.
Defined.

Lemma names_sort_by_time_witness :
  String.compare (out_path (strftime "%Y-%m-%d_%H%M%S" (demo_clock 0)))
                 (out_path (strftime "%Y-%m-%d_%H%M%S" (demo_clock 1)))
  = (stamp_key (demo_clock 0) ?= stamp_key (demo_clock 1)).
Proof.
  apply (names_sort_by_time (demo_clock 0) (demo_clock 1)).
  - apply demo_clock_valid_below. lia.
  - apply demo_clock_valid_below. lia.
Defined.

Lemma blocked_fs_healthy :
  Healthy demo_env demo_model demo_signal demo_res blocked_fs 1.
Proof.
  split.
  - intros k _. reflexivity.
  - intros k _. apply demo_model_chunk.
  - unfold blocked_fs. rewrite !lookup_insert_ne by discriminate.
    now rewrite lookup_empty.
  - intros [|k] Hk; [|lia]. unfold blocked_fs.
    rewrite lookup_insert_ne by (vm_compute; discriminate).
    rewrite lookup_insert_ne by (symmetry; apply out_path_ne_OUT_DIR).
    now rewrite lookup_empty.
Qed.

Lemma blocked_fs_out_dir : blocked_fs !! OUT_DIR = Some Dir.
Proof.
  unfold blocked_fs. rewrite lookup_insert_ne by discriminate. apply lookup_insert_eq.
Qed.

Lemma temp_dir_fs_out_dir : temp_dir_fs !! OUT_DIR = None.
Proof.
  unfold temp_dir_fs. rewrite lookup_insert_ne by discriminate. apply lookup_empty.
Qed.

(** The four ways a pass fails, each on an environment that fails that way:
    the device gone in the second pass, [temp.wav] a directory, a model
    that fails on the second chunk, a directory named like the second
    transcript. *)
Lemma failure_ends_the_script_witness :
  (let wn := world_after deaf_env demo_signal demo_res 1 empty_fs in
   script deaf_env 3 (boot empty_fs) =
   Raise PortAudioError
     {| files := files wn;
        trace := trace wn ++ [EvPrint "Recording 60s..."];
        n_rec := 1; n_now := 1 |}) /\
  (let wn := world_after demo_env demo_signal demo_res 0 temp_dir_fs in
   script demo_env 2 (boot temp_dir_fs) =
   Raise LibsndfileError
     {| files := files wn;
        trace := trace wn ++ [ EvPrint "Recording 60s..."; EvRec 960000 16000 1;
                               EvWait ];
        n_rec := 1; n_now := 0 |}) /\
  (let wn := world_after picky_env demo_signal demo_res 1 empty_fs in
   script picky_env 4 (boot empty_fs) =
   Raise RuntimeError
     {| files := <["temp.wav" := WavFile (chunk_of (demo_signal 1))]> (files wn);
        trace := trace wn ++ [ EvPrint "Recording 60s..."; EvRec 960000 16000 1;
                               EvWait; EvSfWrite "temp.wav" ];
        n_rec := 2; n_now := 1 |}) /\
  (let wn := world_after demo_env demo_signal demo_res 1 blocked_fs in
   script demo_env 3 (boot blocked_fs) =
   Raise IsADirectoryError
     {| files := <["temp.wav" := WavFile (chunk_of (demo_signal 1))]> (files wn);
        trace := trace wn ++ [ EvPrint "Recording 60s..."; EvRec 960000 16000 1;
                               EvWait; EvSfWrite "temp.wav";
                               EvTranscribe "temp.wav"; EvNow ];
        n_rec := 2; n_now := 2 |}).
Proof.
  split; [|split; [|split]].
  - apply (proj1 (failure_ends_the_script deaf_env demo_model demo_signal demo_res
                    empty_fs 1 3 eq_refl (or_introl (lookup_empty _)) ltac:(lia))).
    + exact (passes_ok _ _ _ _ _ _ deaf_healthy_run).
    + reflexivity.
  - apply (proj1 (proj2 (failure_ends_the_script demo_env demo_model demo_signal
                           demo_res temp_dir_fs 0 2 eq_refl
                           (or_introl temp_dir_fs_out_dir)
                           ltac:(lia))) (demo_signal 0)).
    + reflexivity.
    + apply lookup_insert_eq.
    + reflexivity.
  - apply (proj1 (proj2 (proj2 (failure_ends_the_script picky_env picky_model
                                  demo_signal demo_res empty_fs 1 4 eq_refl
                                  (or_introl (lookup_empty _)) ltac:(lia))))
             (demo_signal 1) RuntimeError).
    + exact (passes_ok _ _ _ _ _ _ picky_healthy).
    + reflexivity.
    + exact picky_model_fails.
  - apply (proj2 (proj2 (proj2 (failure_ends_the_script demo_env demo_model
                                  demo_signal demo_res blocked_fs 1 3 eq_refl
                                  (or_intror blocked_fs_out_dir) ltac:(lia))))
             (demo_signal 1) (demo_res 1)).
    + exact blocked_fs_healthy.
    + reflexivity.
    + apply demo_model_chunk.
    + apply lookup_insert_eq.
Defined.
